(** * TikTokApi.api.video: page-state extraction and media retrieval

    A shallow embedding of [TikTokApi/api/video.py]: the URL collector
    [extract_url_lists], the container-signature test used by [Video.bytes],
    the page-state extraction of [Video.info], the field derivation of
    [Video.__extract_from_data] and the two download loops of [Video.bytes].

    Python values are an inductive type, exceptions an error type, the
    session's header mapping an object in a store (so that aliasing is
    visible), and the HTTP capability a pair of functions over an abstract
    network state. *)

From Stdlib Require Import ZArith List String Ascii Strings.Byte Lia SpecFloat Bool.
From stdpp Require Import gmap strings pretty.
Import ListNotations.

Local Set Warnings "-register-all".
Local Open Scope string_scope.
Local Open Scope list_scope.

(** ** Python values *)

(** What [json.loads] produces, and what the code passes around: [None],
    booleans, integers, floats (IEEE doubles, as [spec_float]), strings,
    lists and dicts.  A dict keeps its insertion order ([dict.items()]
    iterates in that order), so it is an association list; a lookup takes
    the first entry of a key, and Python keeps one entry per key. *)
Inductive value : Type :=
| VNone
| VBool (b : bool)
| VInt (z : Z)
| VFloat (f : spec_float)
| VStr (s : string)
| VList (items : list value)
| VDict (items : list (string * value)).

(** Induction over trees: the generated principle says nothing about the
    values nested in a list or a dict. *)
Section value_induction.
Variable P : value -> Prop.
Hypothesis HNone : P VNone.
Hypothesis HBool : forall b, P (VBool b).
Hypothesis HInt : forall z, P (VInt z).
Hypothesis HFloat : forall f, P (VFloat f).
Hypothesis HStr : forall s, P (VStr s).
Hypothesis HList : forall l, Forall P l -> P (VList l).
Hypothesis HDict : forall d, Forall (fun kv => P (snd kv)) d -> P (VDict d).

Fixpoint value_tree_ind (v : value) : P v :=
  match v with
  | VNone => HNone
  | VBool b => HBool b
  | VInt z => HInt z
  | VFloat f => HFloat f
  | VStr s => HStr s
  | VList l =>
      HList l
        ((fix go (l : list value) : Forall P l :=
            match l with
            | [] => ListDef.Forall_nil _
            | x :: r => ListDef.Forall_cons _ x r (value_tree_ind x) (go r)
            end) l)
  | VDict d =>
      HDict d
        ((fix go (d : list (string * value)) : Forall (fun kv => P (snd kv)) d :=
            match d with
            | [] => ListDef.Forall_nil _
            | kv :: r => ListDef.Forall_cons _ kv r (value_tree_ind (snd kv)) (go r)
            end) d)
  end.
End value_induction.

(** [isinstance(v, str)] *)
Definition isinstance_str (v : value) : bool :=
  match v with VStr _ => true | _ => false end.

(** ** The URL collector: [extract_url_lists] *)

(** [urls] starts empty; [append] and [extend] add at the end, so the
    result is the concatenation, in iteration order, of what each entry
    contributes. *)
Fixpoint extract_url_lists (data : value) : list string :=
  match data with
  | VDict d =>
      flat_map
        (fun kv =>
           let key := fst kv in
           let value := snd kv in
           if String.eqb key "downloadAddr" && isinstance_str value
           then match value with VStr s => [s] | _ => [] end
           else extract_url_lists value)
        d
  | VList l => flat_map extract_url_lists l
  | _ => []
  end.

(** The collector as the specification words it: at every mapping entry,
    a string held under the key [downloadAddr] is collected, and the
    entry's value is descended into whatever its key; every element of a
    sequence is descended into; anything else contributes nothing. *)
Fixpoint collect (node : value) : list string :=
  match node with
  | VDict d =>
      flat_map
        (fun kv =>
           (match snd kv with
            | VStr s => if String.eqb (fst kv) "downloadAddr" then [s] else []
            | _ => []
            end) ++ collect (snd kv))
        d
  | VList l => flat_map collect l
  | _ => []
  end.

(** [holds t s]: somewhere in [t] a field named [downloadAddr] holds the
    string [s]. *)
Inductive holds : value -> string -> Prop :=
| holds_here d s : In ("downloadAddr", VStr s) d -> holds (VDict d) s
| holds_dict d k v s : In (k, v) d -> holds v s -> holds (VDict d) s
| holds_list l v s : In v l -> holds v s -> holds (VList l) s.

(** ** The collector over the object store *)

(** Python passes references: [data] names an object, and so does each
    entry of a dict and each element of a list.  To say what a call does
    to the objects it is handed, the collector is also written over a
    store of objects, with its local list [urls] allocated in that store
    and grown by [append] and [extend]. *)
Definition loc := positive.

Inductive object : Type :=
| ONone
| OBool (b : bool)
| OInt (z : Z)
| OFloat (f : spec_float)
| OStr (s : string)
| OList (items : list loc)
| ODict (items : list (string * loc)).

(** [isinstance(value, str)] on a reference. *)
Definition isinstance_str_at (h : gmap loc object) (l : loc) : bool :=
  match h !! l with Some (OStr _) => true | _ => false end.

(** [urls.append(x)] *)
Definition list_append (urls x : loc) (h : gmap loc object) : gmap loc object :=
  match h !! urls with
  | Some (OList l) => <[urls := OList (l ++ [x])]> h
  | _ => h
  end.

(** [urls.extend(more)] *)
Definition list_extend (urls more : loc) (h : gmap loc object) : gmap loc object :=
  match h !! urls, h !! more with
  | Some (OList l), Some (OList l') => <[urls := OList (l ++ l')]> h
  | _, _ => h
  end.

Section collector_loops.
Variable recurse : loc -> gmap loc object -> option (loc * gmap loc object).

(** [for key, value in data.items(): ...] *)
Fixpoint for_items (urls : loc) (items : list (string * loc)) (h : gmap loc object)
  : option (gmap loc object) :=
  match items with
  | [] => Some h
  | (key, value) :: rest =>
      if String.eqb key "downloadAddr" && isinstance_str_at h value
      then for_items urls rest (list_append urls value h)
      else match recurse value h with
           | Some (more, h') => for_items urls rest (list_extend urls more h')
           | None => None
           end
  end.

(** [for item in data: ...] *)
Fixpoint for_elements (urls : loc) (items : list loc) (h : gmap loc object)
  : option (gmap loc object) :=
  match items with
  | [] => Some h
  | item :: rest =>
      match recurse item h with
      | Some (more, h') => for_elements urls rest (list_extend urls more h')
      | None => None
      end
  end.
End collector_loops.

(** [extract_url_lists(data)] in store [h], with [depth] nested calls
    allowed (Python's recursion limit; [None] is a [RecursionError]).
    The result is the reference to the new list and the store after the
    call. *)
Fixpoint extract_url_lists_at (depth : nat) (data : loc) (h : gmap loc object)
  : option (loc * gmap loc object) :=
  match depth with
  | O => None
  | S depth =>
      let urls := fresh (dom h) in
      let h1 := <[urls := OList []]> h in
      match h !! data with
      | Some (ODict items) =>
          match for_items (extract_url_lists_at depth) urls items h1 with
          | Some h' => Some (urls, h')
          | None => None
          end
      | Some (OList items) =>
          match for_elements (extract_url_lists_at depth) urls items h1 with
          | Some h' => Some (urls, h')
          | None => None
          end
      | _ => Some (urls, h1)
      end
  end.

(** [repr h t l]: in store [h] the object at [l] is the tree [t]. *)
Inductive repr (h : gmap loc object) : value -> loc -> Prop :=
| repr_none l : h !! l = Some ONone -> repr h VNone l
| repr_bool l b : h !! l = Some (OBool b) -> repr h (VBool b) l
| repr_int l z : h !! l = Some (OInt z) -> repr h (VInt z) l
| repr_float l f : h !! l = Some (OFloat f) -> repr h (VFloat f) l
| repr_str l s : h !! l = Some (OStr s) -> repr h (VStr s) l
| repr_list l ls ts :
    h !! l = Some (OList ls) -> Forall2 (repr h) ts ls -> repr h (VList ts) l
| repr_dict l ls d :
    h !! l = Some (ODict ls) ->
    Forall2 (fun kv kl => fst kv = fst kl /\ repr h (snd kv) (snd kl)) d ls ->
    repr h (VDict d) l.

(** The strings a list of references names. *)
Definition strings_at (h : gmap loc object) (ls : list loc) (ss : list string) : Prop :=
  Forall2 (fun l s => h !! l = Some (OStr s)) ls ss.

(** Nesting depth of a tree. *)
Fixpoint height (t : value) : nat :=
  match t with
  | VList l => S (fold_right (fun x n => Nat.max (height x) n) 0%nat l)
  | VDict d => S (fold_right (fun kv n => Nat.max (height (snd kv)) n) 0%nat d)
  | _ => 0%nat
  end.

(** ** Byte strings and the container signature *)

Definition bytestring := list byte.

(** [b'ftyp'] *)
Definition ftyp : bytestring := [x66; x74; x79; x70].

Fixpoint startswith (p l : bytestring) : bool :=
  match p, l with
  | [], _ => true
  | _ :: _, [] => false
  | a :: p', b :: l' => Byte.eqb a b && startswith p' l'
  end.

(** [needle in hay] on bytes: [needle] occurs as a contiguous run. *)
Fixpoint bytes_in (needle hay : bytestring) : bool :=
  startswith needle hay
  || match hay with
     | [] => false
     | _ :: t => bytes_in needle t
     end.

(** Truth value of a bytes object: non-empty. *)
Definition truthy_bytes (b : bytestring) : bool :=
  match b with [] => false | _ => true end.

(** The guard of both download paths:
    [not content or b'ftyp' not in content[:32]]. *)
Definition invalid_video (content : bytestring) : bool :=
  negb (truthy_bytes content) || negb (bytes_in ftyp (firstn 32 content)).

Definition is_valid_container (prefix_bytes : bytestring) : bool :=
  negb (invalid_video prefix_bytes).

(** ** Exceptions and results *)

(** The exception classes the code raises or lets through.  All of them
    derive from [Exception], so [except Exception] catches each one.
    [JSONDecodeError] is what [json.loads] raises; [TransportError] stands
    for whatever the HTTP libraries raise (connection reset, timeout). *)
Inductive exn : Type :=
| InvalidResponseException (error_code : option Z)
| TypeError
| KeyError (key : value)
| IndexError
| AttributeError
| ValueError
| OverflowError
| JSONDecodeError
| StopIteration
| StopAsyncIteration
| TransportError (reason : string).

Inductive result (A : Type) : Type :=
| Ok (a : A)
| Raise (e : exn).
Arguments Ok {A} a.
Arguments Raise {A} e.

#[export] Instance result_ret : MRet result := fun A a => Ok a.
#[export] Instance result_bind : MBind result :=
  fun A B f m => match m with Ok a => f a | Raise e => Raise e end.

(** ** Python primitives on values *)

Fixpoint dict_lookup (k : string) (d : list (string * value)) : option value :=
  match d with
  | [] => None
  | (k', v) :: r => if String.eqb k k' then Some v else dict_lookup k r
  end.

(** [l[i]] on a list: negative indices count from the end. *)
Definition list_index (l : list value) (i : Z) : result value :=
  let n := Z.of_nat (length l) in
  let j := if (i <? 0)%Z then (i + n)%Z else i in
  if ((j <? 0) || (n <=? j))%Z then Raise IndexError
  else match nth_error l (Z.to_nat j) with Some x => Ok x | None => Raise IndexError end.

Definition str_index (s : string) (i : Z) : result value :=
  let n := Z.of_nat (String.length s) in
  let j := if (i <? 0)%Z then (i + n)%Z else i in
  if ((j <? 0) || (n <=? j))%Z then Raise IndexError
  else Ok (VStr (substring (Z.to_nat j) 1 s)).

(** [v[k]]: a dict is looked up by key (every key of a decoded JSON
    object is a string, so no other hashable key is found; lists and
    dicts are unhashable); a list or a string is indexed by an integer;
    nothing else is subscriptable. *)
Definition getitem (v k : value) : result value :=
  match v with
  | VDict d =>
      match k with
      | VStr s => match dict_lookup s d with Some x => Ok x | None => Raise (KeyError k) end
      | VList _ | VDict _ => Raise TypeError
      | _ => Raise (KeyError k)
      end
  | VList l =>
      match k with
      | VInt i => list_index l i
      | VBool b => list_index l (if b then 1 else 0)%Z
      | _ => Raise TypeError
      end
  | VStr s =>
      match k with
      | VInt i => str_index s i
      | VBool b => str_index s (if b then 1 else 0)%Z
      | _ => Raise TypeError
      end
  | _ => Raise TypeError
  end.

(** [v.get(k, default)]: only dicts have the method. *)
Definition get (v : value) (k : string) (default : value) : result value :=
  match v with
  | VDict d => Ok (match dict_lookup k d with Some x => x | None => default end)
  | _ => Raise AttributeError
  end.

Definition float_is_zero (f : spec_float) : bool :=
  match f with S754_zero _ => true | _ => false end.

(** [v != 0] *)
Definition ne_zero (v : value) : bool :=
  match v with
  | VInt z => negb (Z.eqb z 0)
  | VBool b => b
  | VFloat f => negb (float_is_zero f)
  | _ => true
  end.

(** Truth value, as [or] tests it. *)
Definition truthy (v : value) : bool :=
  match v with
  | VNone => false
  | VBool b => b
  | VInt z => negb (Z.eqb z 0)
  | VFloat f => negb (float_is_zero f)
  | VStr s => negb (String.eqb s "")
  | VList l => match l with [] => false | _ => true end
  | VDict d => match d with [] => false | _ => true end
  end.

Definition is_none (v : value) : bool :=
  match v with VNone => true | _ => false end.

(** [int(f)] on a float truncates towards zero; infinities and NaN raise. *)
Definition int_of_float (f : spec_float) : result Z :=
  match f with
  | S754_zero _ => Ok 0%Z
  | S754_infinity _ => Raise OverflowError
  | S754_nan => Raise ValueError
  | S754_finite s m e =>
      let mag := Z.shiftl (Z.pos m) e in
      Ok (if s then (- mag)%Z else mag)
  end.

(** [for x in v]: what iterating a value visits. *)
Definition iterate (v : value) : result (list value) :=
  match v with
  | VList l => Ok l
  | VDict d => Ok (map (fun kv => VStr (fst kv)) d)
  | VStr s => Ok (map (fun c => VStr (String c EmptyString)) (list_ascii_of_string s))
  | _ => Raise TypeError
  end.

(** ** Paths into a payload *)

(** [field k v]: the entry under [k] when [v] is a mapping that has one. *)
Definition field (k : string) (v : value) : option value :=
  match v with VDict d => dict_lookup k d | _ => None end.

Definition is_mapping (v : value) : bool :=
  match v with VDict _ => true | _ => false end.

Definition mapping_if_present (o : option value) : bool :=
  match o with Some v => is_mapping v | None => true end.

(** The places of the REHYDRATION payload
    [{"__DEFAULT_SCOPE__": {"webapp.video-detail":
        {"statusCode": .., "itemInfo": {"itemStruct": ..}}}}]. *)
Definition default_scope_of (data : value) : option value :=
  field "__DEFAULT_SCOPE__" data.
Definition video_detail_of (data : value) : option value :=
  default_scope_of data ≫= field "webapp.video-detail".
Definition status_of (data : value) : option value :=
  video_detail_of data ≫= field "statusCode".
Definition item_info_of (data : value) : option value :=
  video_detail_of data ≫= field "itemInfo".
Definition item_struct_of (data : value) : option value :=
  item_info_of data ≫= field "itemStruct".

(** The payload is a mapping, and so is each of [__DEFAULT_SCOPE__],
    [webapp.video-detail] and [itemInfo] that is there. *)
Definition mappings_on_path (data : value) : bool :=
  is_mapping data
  && mapping_if_present (default_scope_of data)
  && mapping_if_present (video_detail_of data)
  && mapping_if_present (item_info_of data).

(** [statusCode] is absent, or equal to 0. *)
Definition status_is_zero (data : value) : bool :=
  match status_of data with Some v => negb (ne_zero v) | None => true end.

(** ** Text scanning *)

(** [s.find(sub, start)] for [0 <= start]: the lowest index at or after
    [start] where [sub] occurs, or [-1]. *)
Definition find (s sub : string) (start : Z) : Z :=
  match index (Z.to_nat start) sub s with
  | Some n => Z.of_nat n
  | None => (-1)%Z
  end.

(** [s[start:stop]] for [0 <= start <= stop <= len(s)]. *)
Definition slice (s : string) (start stop : Z) : string :=
  substring (Z.to_nat start) (Z.to_nat (stop - start)) s.

Definition len (s : string) : Z := Z.of_nat (String.length s).

(** [sub in s] on strings. *)
Definition str_in (sub s : string) : bool :=
  match index 0 sub s with Some _ => true | None => false end.

(** The double-quote character. *)
Definition dq : string := String (ascii_of_nat 34) EmptyString.

Definition script_open (id : string) : string :=
  "<script id=" +:+ dq +:+ id +:+ dq +:+ " type=" +:+ dq +:+ "application/json" +:+ dq +:+ ">".

(** [<script id="SIGI_STATE" type="application/json">] *)
Definition SIGI_STATE : string := script_open "SIGI_STATE".

(** [<script id="__UNIVERSAL_DATA_FOR_REHYDRATION__" type="application/json">] *)
Definition UNIVERSAL_DATA : string := script_open "__UNIVERSAL_DATA_FOR_REHYDRATION__".

Definition script_close : string := "</script>".

(** ** HTTP messages *)

Record Request : Type := {
  req_url : string;
  req_headers : gmap string string;
  req_cookies : gmap string string;
  req_proxies : option string
}.

(** A [requests.Response], with the attributes the code reads. *)
Record Response : Type := {
  status_code : Z;
  headers : gmap string string;
  content : bytestring;
  text : string;
  cookies : gmap string string
}.

(** An [httpx.Response] opened by [client.stream]: its status, and what
    [aread()] gives, the whole body or a transport error. *)
Record StreamedResponse : Type := {
  stream_status_code : Z;
  aread : result bytestring
}.

(** [aiter_bytes()] on a response whose body [aread()] has buffered:
    httpx iterates over the buffered body, with one chunk of the body's
    length when no chunk size is given

      for i in range(0, len(content), max(len(content), 1)):
          yield content[i : i + len(content)]

    so an empty body gives no chunk, any other body one chunk; every call
    starts a new iteration at the first byte. *)
Definition aiter_bytes (buffered : bytestring) : list bytestring :=
  match buffered with
  | [] => []
  | _ => [buffered]
  end.

(** ** Asynchronous generators *)

(** An async generator of byte chunks, by what it does when driven: it
    yields a chunk and goes on, returns, or raises. *)
Inductive agen : Type :=
| GStop
| GRaise (e : exn)
| GYield (chunk : bytestring) (rest : agen).

(** [await gen.__anext__()] *)
Definition anext (gen : agen) : result (bytestring * agen) :=
  match gen with
  | GYield chunk rest => Ok (chunk, rest)
  | GStop => Raise StopAsyncIteration
  | GRaise e => Raise e
  end.

(** [for chunk in chunks: yield chunk], then [k]. *)
Fixpoint yield_each (chunks : list bytestring) (k : agen) : agen :=
  match chunks with
  | [] => k
  | chunk :: r => GYield chunk (yield_each r k)
  end.

(** [async for chunk in gen: yield chunk] *)
Fixpoint yield_from (gen : agen) : agen :=
  match gen with
  | GStop => GStop
  | GRaise e => GRaise e
  | GYield chunk rest => GYield chunk (yield_from rest)
  end.

(** The chunks a consumer receives by iterating a generator to its end. *)
Fixpoint chunks_of (gen : agen) : list bytestring :=
  match gen with
  | GYield chunk rest => chunk :: chunks_of rest
  | _ => []
  end.

(** What [Video.bytes] hands back. *)
Inductive media : Type :=
| MNone
| MBytes (body : bytestring)
| MStream (gen : agen).

(** ** The session and the store *)

(** The session object: its header mapping and its cookie jar are
    objects in the store, named by their locations. *)
Record Session : Type := {
  session_headers : loc;
  session_proxy : option string;
  session_jar : loc
}.

(** Trace of what a run did: the markers scanned for and the candidate
    URLs requested, in order. *)
Inductive event : Type :=
| Scan (marker : string)
| Fetch (url : string).

(** ** The collaborators outside this file *)

(** What [video.py] calls and does not define: the two HTTP clients
    (over a network state that each request may change), [json.loads],
    [int] on a string, [datetime.fromtimestamp] on a number, the parent's
    factories for users, sounds and hashtags, and string formatting. *)
Class Host : Type := {
  World : Type;
  requests_get : Request -> World -> result Response * World;
  client_stream : Request -> World -> result StreamedResponse * World;
  json_loads : string -> option value;
  int_of_str : string -> option Z;
  datetime : Type;
  fromtimestamp_int : Z -> result datetime;
  fromtimestamp_float : spec_float -> result datetime;
  User : Type;
  Sound : Type;
  Hashtag : Type;
  parent_user_username : string -> result User;
  parent_user_data : value -> result User;
  parent_sound : value -> result Sound;
  parent_hashtag : value -> result Hashtag;
  str_of_user : User -> string;
  str_of_value : value -> string
}.

Section Model.
Context `{Host}.

(** [int(v)] *)
Definition py_int (v : value) : result Z :=
  match v with
  | VInt z => Ok z
  | VBool b => Ok (if b then 1 else 0)%Z
  | VFloat f => int_of_float f
  | VStr s => match int_of_str s with Some z => Ok z | None => Raise ValueError end
  | _ => Raise TypeError
  end.

(** [datetime.fromtimestamp(v)]: a number is required. *)
Definition fromtimestamp (v : value) : result datetime :=
  match v with
  | VInt z => fromtimestamp_int z
  | VBool b => fromtimestamp_int (if b then 1 else 0)%Z
  | VFloat f => fromtimestamp_float f
  | _ => Raise TypeError
  end.

(** The attributes of a [Video]; [None] in an option is an attribute
    not yet set.  [id] and [url] are always set by [__init__]: [id] to
    [None] or a string at first, to whatever [data["id"]] holds later;
    [url] to [None] or a string. *)
Record Video : Type := {
  id : value;
  url : option string;
  create_time : option datetime;
  stats : option value;
  author : option User;
  sound : option Sound;
  hashtags : option (list Hashtag);
  as_dict : option value
}.

(** The state a call runs in: the video object, the store of dict
    objects (header mappings and cookie jars), the network, and the
    trace. *)
Record State : Type := {
  self : Video;
  heap : gmap loc (gmap string string);
  net : World;
  trace : list event
}.

Definition M (A : Type) : Type := State -> result A * State.

#[export] Instance M_ret : MRet M := fun A a st => (Ok a, st).
#[export] Instance M_bind : MBind M :=
  fun A B f m st =>
    match m st with
    | (Ok a, st') => f a st'
    | (Raise e, st') => (Raise e, st')
    end.

Definition raise {A} (e : exn) : M A := fun st => (Raise e, st).

Definition lift {A} (r : result A) : M A := fun st => (r, st).

(** [try: m], with the outcome as a value: the effects of [m] stay. *)
Definition attempt {A} (m : M A) : M (result A) :=
  fun st => let '(r, st') := m st in (Ok r, st').

(** The state with more events at the end of its trace. *)
Definition add_events (evs : list event) (st : State) : State :=
  {| self := self st; heap := heap st; net := net st; trace := trace st ++ evs |}.

Definition tell (e : event) : M unit := fun st => (Ok tt, add_events [e] st).

Definition read {A} (field : Video -> A) : M A := fun st => (Ok (field (self st)), st).

Definition modify_self (f : Video -> Video) : M unit :=
  fun st =>
    (Ok tt, {| self := f (self st); heap := heap st; net := net st; trace := trace st |}).

(** The dict object at a location. *)
Definition deref (st : State) (l : loc) : gmap string string :=
  default ∅ (heap st !! l).

Definition load (l : loc) : M (gmap string string) := fun st => (Ok (deref st l), st).

(** The state with the dict object at [l] replaced by [d]. *)
Definition store (l : loc) (d : gmap string string) (st : State) : State :=
  {| self := self st; heap := <[l := d]> (heap st); net := net st; trace := trace st |}.

(** [d[k] = v] on the dict object at [l]: the object itself changes, for
    every holder of the reference. *)
Definition setitem (l : loc) (k v : string) : M unit :=
  fun st => (Ok tt, store l (<[k := v]> (deref st l)) st).

(** The state after a request for [url] that left the network in
    state [w]. *)
Definition fetched (url : string) (w : World) (st : State) : State :=
  {| self := self st; heap := heap st; net := w; trace := trace st ++ [Fetch url] |}.

(** [requests.get(...)]; an exception of the library is raised here. *)
Definition http_get (req : Request) : M Response :=
  fun st =>
    let '(r, w) := requests_get req (net st) in (r, fetched (req_url req) w st).

(** [client.stream('GET', ...)]; the outcome is handed on as a value,
    for the generator to act on. *)
Definition http_stream (req : Request) : M (result StreamedResponse) :=
  fun st =>
    let '(r, w) := client_stream req (net st) in (Ok r, fetched (req_url req) w st).

(** Modelled from the spec: [parent.get_session_cookies] is not in this
    file; the session's cookie store is read, not changed, and the
    cookies come back as a mapping of the caller's own. *)
Definition get_session_cookies (session : Session) : M (gmap string string) :=
  load (session_jar session).

(** Modelled from the spec: [parent.set_session_cookies] is not in this
    file; the response's cookies are merged into the session's jar, a
    new cookie replacing an old one of the same name. *)
Definition set_session_cookies (session : Session) (new : gmap string string) : M unit :=
  fun st => (Ok tt, store (session_jar session) (new ∪ deref st (session_jar session)) st).

(** [r.text.find(marker, start)], recorded in the trace. *)
Definition scan (r : Response) (marker : string) (start : Z) : M Z :=
  tell (Scan marker);; mret (find (text r) marker start).

Definition loads (s : string) : result value :=
  match json_loads s with Some v => Ok v | None => Raise JSONDecodeError end.

(** *** [Video.info]: the page-state extraction (lines 107-159) *)

Definition invalid_response (r : Response) : exn :=
  InvalidResponseException (Some (status_code r)).

(** The LEGACY branch, entered once the open marker is found at
    [start]. *)
Definition extract_sigi (r : Response) (start : Z) : M value :=
  let start := (start + len SIGI_STATE)%Z in
  end_ ← scan r script_close start;
  if (end_ =? -1)%Z then raise (invalid_response r)
  else
    data ← lift (loads (slice (text r) start end_));
    item_module ← lift (getitem data (VStr "ItemModule"));
    self_id ← read id;
    lift (getitem item_module self_id).

(** The REHYDRATION branch. *)
Definition extract_universal (r : Response) : M value :=
  start ← scan r UNIVERSAL_DATA 0;
  if (start =? -1)%Z then raise (invalid_response r)
  else
    let start := (start + len UNIVERSAL_DATA)%Z in
    end_ ← scan r script_close start;
    if (end_ =? -1)%Z then raise (invalid_response r)
    else
      data ← lift (loads (slice (text r) start end_));
      default_scope ← lift (get data "__DEFAULT_SCOPE__" (VDict []));
      video_detail ← lift (get default_scope "webapp.video-detail" (VDict []));
      status ← lift (get video_detail "statusCode" (VInt 0));
      if ne_zero status then raise (invalid_response r)
      else
        item_info ← lift (get video_detail "itemInfo" (VDict []));
        video_info ← lift (get item_info "itemStruct" VNone);
        if is_none video_info then raise (invalid_response r)
        else mret video_info.

Definition extract (r : Response) : M value :=
  if negb (status_code r =? 200)%Z then raise (invalid_response r)
  else
    start ← scan r SIGI_STATE 0;
    if negb (start =? -1)%Z then extract_sigi r start
    else extract_universal r.

(** *** [Video.__extract_from_data] *)

(** [[f(x) for x in l]]: left to right, the first exception ends it. *)
Fixpoint comprehension {A B} (f : A -> result B) (l : list A) : result (list B) :=
  match l with
  | [] => Ok []
  | x :: r => y ← f x; ys ← comprehension f r; mret (y :: ys)
  end.

(** Attribute assignments [self.x = ...]. *)
Definition set_id (x : value) (v : Video) : Video :=
  {| id := x; url := url v; create_time := create_time v; stats := stats v;
     author := author v; sound := sound v; hashtags := hashtags v; as_dict := as_dict v |}.
Definition set_url (x : string) (v : Video) : Video :=
  {| id := id v; url := Some x; create_time := create_time v; stats := stats v;
     author := author v; sound := sound v; hashtags := hashtags v; as_dict := as_dict v |}.
Definition set_create_time (x : datetime) (v : Video) : Video :=
  {| id := id v; url := url v; create_time := Some x; stats := stats v;
     author := author v; sound := sound v; hashtags := hashtags v; as_dict := as_dict v |}.
Definition set_stats (x : value) (v : Video) : Video :=
  {| id := id v; url := url v; create_time := create_time v; stats := Some x;
     author := author v; sound := sound v; hashtags := hashtags v; as_dict := as_dict v |}.
Definition set_author (x : User) (v : Video) : Video :=
  {| id := id v; url := url v; create_time := create_time v; stats := stats v;
     author := Some x; sound := sound v; hashtags := hashtags v; as_dict := as_dict v |}.
Definition set_sound (x : Sound) (v : Video) : Video :=
  {| id := id v; url := url v; create_time := create_time v; stats := stats v;
     author := author v; sound := Some x; hashtags := hashtags v; as_dict := as_dict v |}.
Definition set_hashtags (x : list Hashtag) (v : Video) : Video :=
  {| id := id v; url := url v; create_time := create_time v; stats := stats v;
     author := author v; sound := sound v; hashtags := Some x; as_dict := as_dict v |}.
Definition set_as_dict (x : value) (v : Video) : Video :=
  {| id := id v; url := url v; create_time := create_time v; stats := stats v;
     author := author v; sound := sound v; hashtags := hashtags v; as_dict := Some x |}.

(** [self.as_dict], an [AttributeError] while the attribute is unset. *)
Definition read_as_dict : M value :=
  o ← read as_dict;
  lift (match o with Some d => Ok d | None => Raise AttributeError end).

(** Lines 278-283: the [createTime] entry, coerced by [int] when it is
    not [None]; only a [ValueError] of [int] is passed over. *)
Definition coerce_timestamp (timestamp : value) : result value :=
  if negb (is_none timestamp)
  then match py_int timestamp with
       | Ok z => Ok (VInt z)
       | Raise ValueError => Ok timestamp
       | Raise e => Raise e
       end
  else Ok timestamp.

Definition extract_from_data : M unit :=
  data ← read_as_dict;
  i ← lift (getitem data (VStr "id"));
  modify_self (set_id i);;
  timestamp ← lift (get data "createTime" VNone);
  timestamp ← lift (coerce_timestamp timestamp);
  t ← lift (fromtimestamp timestamp);
  modify_self (set_create_time t);;
  stats_v2 ← lift (get data "statsV2" VNone);
  st ← (if truthy stats_v2 then mret stats_v2 else lift (get data "stats" VNone));
  modify_self (set_stats st);;
  a ← lift (get data "author" VNone);
  u ← lift (match a with
            | VStr username => parent_user_username username
            | _ => parent_user_data a
            end);
  modify_self (set_author u);;
  s ← lift (parent_sound data);
  modify_self (set_sound s);;
  challenges ← lift (get data "challenges" (VList []));
  items ← lift (iterate challenges);
  hs ← lift (comprehension parent_hashtag items);
  modify_self (set_hashtags hs);;
  self_id ← read id;
  modify_self
    (set_url ("https://www.tiktok.com/@" +:+ str_of_user u +:+ "/video/"
              +:+ str_of_value self_id)).

(** *** [Video.info] *)

(** [session] is what [parent._get_session] returned, [proxy_kw] the
    [proxy] keyword argument. *)
Definition info (session : Session) (proxy_kw : option string) : M value :=
  let proxy := match proxy_kw with Some p => Some p | None => session_proxy session end in
  u ← read url;
  match u with
  | None => raise TypeError
  | Some self_url =>
      h ← load (session_headers session);
      r ← http_get {| req_url := self_url; req_headers := h;
                      req_cookies := ∅; req_proxies := proxy |};
      video_info ← extract r;
      modify_self (set_as_dict video_info);;
      extract_from_data;;
      set_session_cookies session (cookies r);;
      mret video_info
  end.

(** *** [Video.bytes] *)

(** The generator [stream_bytes], from the point where
    [client.stream] has answered with [opened]. *)
Definition stream_bytes (opened : result StreamedResponse) : agen :=
  match opened with
  | Raise e => GRaise e
  | Ok streamedResponse =>
      match aread streamedResponse with
      | Raise e => GRaise e
      | Ok body =>
          if negb (stream_status_code streamedResponse =? 200)%Z
          then GRaise (InvalidResponseException None)
          else
            let first_chunk :=
              match aiter_bytes body with
              | chunk :: _ => chunk
              | [] => []
              end in
            if invalid_video first_chunk then GStop
            else GYield first_chunk (yield_each (aiter_bytes body) GStop)
      end
  end.

Definition valid_stream_generator (first_chunk : bytestring) (gen : agen) : agen :=
  GYield first_chunk (yield_from gen).

(** The [for url in urls] loop of the streaming branch. *)
Fixpoint stream_loop (urls : list string) (h : loc) (cookies : gmap string string)
  : M media :=
  match urls with
  | [] => mret MNone
  | url :: rest =>
      hd ← load h;
      opened ← http_stream {| req_url := url; req_headers := hd;
                              req_cookies := cookies; req_proxies := None |};
      let gen := stream_bytes opened in
      match anext gen with
      | Raise StopAsyncIteration => stream_loop rest h cookies
      | Raise _ => stream_loop rest h cookies
      | Ok (first, gen) => mret (MStream (valid_stream_generator first gen))
      end
  end.

(** The body of the [try] of the whole-body branch, on the outcome of
    [requests.get]. *)
Definition download (got : result Response) : result bytestring :=
  response ← got;
  if (status_code response =? 200)%Z
     && str_in "video" (default "" (headers response !! "Content-Type"))
  then
    if invalid_video (content response) then Raise StopIteration
    else Ok (content response)
  else Raise (InvalidResponseException None).

(** The [for url in urls] loop of the whole-body branch. *)
Fixpoint download_loop (urls : list string) (h : loc) (cookies : gmap string string)
  : M media :=
  match urls with
  | [] => mret MNone
  | url :: rest =>
      hd ← load h;
      got ← attempt (http_get {| req_url := url; req_headers := hd;
                                 req_cookies := cookies; req_proxies := None |});
      match download got with
      | Ok body => mret (MBytes body)
      | Raise _ => download_loop rest h cookies
      end
  end.

Definition bytes (stream : bool) (session : Session) : M media :=
  data ← read_as_dict;
  let urls := extract_url_lists data in
  cookies ← get_session_cookies session;
  let h := session_headers session in
  setitem h "range" "bytes=0-";;
  setitem h "accept-encoding" "identity;q=1, *;q=0";;
  setitem h "referer" "https://www.tiktok.com/";;
  if stream then stream_loop urls h cookies
  else download_loop urls h cookies.

(** *** Vocabulary of the statements about [Video.bytes] *)

(** The header mapping once [range], [accept-encoding] and [referer]
    are written into it. *)
Definition request_headers (old : gmap string string) : gmap string string :=
  <["referer" := "https://www.tiktok.com/"]>
    (<["accept-encoding" := "identity;q=1, *;q=0"]>
       (<["range" := "bytes=0-"]> old)).

(** The state in which the loops start: the session's header mapping
    holds the request headers. *)
Definition prepared (session : Session) (st : State) : State :=
  store (session_headers session)
    (request_headers (deref st (session_headers session))) st.

(** The request a loop makes for a candidate. *)
Definition candidate_request (url : string) (h : loc) (cookies : gmap string string)
    (st : State) : Request :=
  {| req_url := url; req_headers := deref st h; req_cookies := cookies;
     req_proxies := None |}.

(** A whole-body candidate succeeds: status 200, a [Content-Type] that
    contains [video], a body that passes the container validation. *)
Definition candidate_succeeds (got : result Response) : bool :=
  match got with
  | Ok response =>
      (status_code response =? 200)%Z
      && str_in "video" (default "" (headers response !! "Content-Type"))
      && is_valid_container (content response)
  | Raise _ => false
  end.

(** The first chunk of a streamed candidate, if there is one. *)
Definition first_chunk_of (body : bytestring) : option bytestring :=
  match aiter_bytes body with
  | chunk :: _ => Some chunk
  | [] => None
  end.

(** A streaming candidate succeeds: the connection opens, the body is
    read, the status is 200, there is a first chunk and it passes the
    container validation. *)
Definition stream_succeeds (opened : result StreamedResponse) : bool :=
  match opened with
  | Ok streamedResponse =>
      match aread streamedResponse with
      | Ok body =>
          (stream_status_code streamedResponse =? 200)%Z
          && match first_chunk_of body with
             | Some chunk => is_valid_container chunk
             | None => false
             end
      | Raise _ => false
      end
  | Raise _ => false
  end.

(** Every candidate fails, each in the network state its predecessors
    leave. *)
Fixpoint every_candidate_fails (stream : bool) (urls : list string) (h : loc)
    (cookies : gmap string string) (st : State) : Prop :=
  match urls with
  | [] => True
  | url :: rest =>
      if stream
      then let '(opened, w) := client_stream (candidate_request url h cookies st) (net st) in
           stream_succeeds opened = false
           /\ every_candidate_fails stream rest h cookies (fetched url w st)
      else let '(got, w) := requests_get (candidate_request url h cookies st) (net st) in
           candidate_succeeds got = false
           /\ every_candidate_fails stream rest h cookies (fetched url w st)
  end.
End Model.

(** * The derived fields, in the words of the statements *)

Section Derived.
Context `{Host}.

(** The user built for the [author] entry: by name when it is a string,
    from the object otherwise. *)
Definition user_of (a : value) : result User :=
  match a with
  | VStr username => parent_user_username username
  | _ => parent_user_data a
  end.

(** [data.get('statsV2') or data.get('stats')] on a dict. *)
Definition stats_of (d : list (string * value)) : value :=
  let stats_v2 := default VNone (dict_lookup "statsV2" d) in
  if truthy stats_v2 then stats_v2 else default VNone (dict_lookup "stats" d).

(** The canonical URL of a video. *)
Definition video_url (u : User) (i : value) : string :=
  "https://www.tiktok.com/@" +:+ str_of_user u +:+ "/video/" +:+ str_of_value i.

(** The state with another video object. *)
Definition with_self (v : Video) (st : State) : State :=
  {| self := v; heap := heap st; net := net st; trace := trace st |}.

(** What [Video.bytes] hands back is validated media: a buffer that
    passes the container validation, or a stream whose first chunk does;
    or nothing at all. *)
Definition validated (m : media) : Prop :=
  match m with
  | MNone => True
  | MBytes body => is_valid_container body = true
  | MStream gen =>
      exists chunk rest, gen = GYield chunk rest /\ is_valid_container chunk = true
  end.
End Derived.

(** * Construction and the listing generators *)

(** What the rest of [video.py] calls and does not define:
    [extract_video_id_from_url] of the helpers (it follows the URL over
    the network), the parent's [make_request] (the decoded answer, [None]
    when there is none) and its factories for comments and videos. *)
Class Api `{Host} : Type := {
  Comment : Type;
  RelatedVideo : Type;
  extract_video_id_from_url :
    string -> gmap string string -> option string -> World -> result value * World;
  make_request :
    string -> list (string * value) -> value -> value -> World -> result value * World;
  parent_comment : value -> result Comment;
  parent_video : value -> result RelatedVideo
}.

Section Construction.
Context `{Api}.

(** The object after [self.id = id] and [self.url = url]: nothing else
    is set yet. *)
Definition new_video (id_arg url_arg : option string) : Video :=
  {| id := match id_arg with Some i => VStr i | None => VNone end;
     url := url_arg;
     create_time := None; stats := None; author := None; sound := None;
     hashtags := None; as_dict := None |}.

(** [extract_video_id_from_url(url, headers=..., proxy=...)] *)
Definition resolve_id (u : string) (h : gmap string string) (proxy : option string)
  : M value :=
  fun st =>
    let '(r, w) := extract_video_id_from_url u h proxy (net st) in
    (r, {| self := self st; heap := heap st; net := w; trace := trace st |}).

(** [Video.__init__]; [data] is [VNone] when the argument is not given,
    [session] is what [parent._get_session] returns. *)
Definition init (id_arg url_arg : option string) (data : value)
    (session : Session) (proxy_kw : option string) : M unit :=
  modify_self (fun _ => new_video id_arg url_arg);;
  (if negb (is_none data)
   then modify_self (set_as_dict data);; extract_from_data
   else match url_arg with
        | Some u =>
            h ← load (session_headers session);
            i ← resolve_id u h
                  (match proxy_kw with Some p => Some p | None => session_proxy session end);
            modify_self (set_id i)
        | None => mret tt
        end);;
  i ← read id;
  if is_none i then raise TypeError else mret tt.

(** ** [comments] and [related_videos] *)

(** How the iteration of a generator ends: by a return, by an
    exception, or not within the turns of the loop that were allowed. *)
Inductive ending : Type :=
| Returned
| Raised (e : exn)
| Unfinished.

(** A generator consumed to its end: what it yielded, how it ended, the
    parameters of the requests it made, and the network state after. *)
Record listing (A : Type) : Type := {
  yielded : list A;
  how : ending;
  requests : list (list (string * value));
  after : World
}.
Arguments yielded {A} _.
Arguments how {A} _.
Arguments requests {A} _.
Arguments after {A} _.

(** [for v in vs: yield build(v)]: the objects yielded, and the exception
    of the first [build] that raises, if one does. *)
Fixpoint yield_built {A} (build : value -> result A) (vs : list value)
  : list A * option exn :=
  match vs with
  | [] => ([], None)
  | v :: r =>
      match build v with
      | Raise e => ([], Some e)
      | Ok a => let '(ys, e) := yield_built build r in (a :: ys, e)
      end
  end.

(** One answer of [make_request], up to the end of the [for] loop over
    [resp.get(key, [])]: what is yielded, and the answer itself when the
    loop ran through. *)
Definition read_page {A} (build : value -> result A) (key : string)
    (got : result value) : list A * result value :=
  match got with
  | Raise e => ([], Raise e)
  | Ok resp =>
      if is_none resp then ([], Raise (InvalidResponseException None))
      else match get resp key (VList []) ≫= iterate with
           | Raise e => ([], Raise e)
           | Ok vs =>
               let '(ys, e) := yield_built build vs in
               (ys, match e with Some e => Raise e | None => Ok resp end)
           end
  end.

(** A listing with a request and its yield put in front. *)
Definition and_then {A} (params : list (string * value)) (ys : list A)
    (rest : listing A) : listing A :=
  {| yielded := ys ++ yielded rest; how := how rest;
     requests := params :: requests rest; after := after rest |}.

Definition comment_list_url : string := "https://www.tiktok.com/api/comment/list/".
Definition related_list_url : string := "https://www.tiktok.com/api/related/item_list/".

(** The [while found < count] loop of [comments], with [turns] turns
    allowed. *)
Fixpoint comments_from (turns : nat) (self_id : value) (count found : Z)
    (cursor headers_kw session_index_kw : value) (w : World) : listing Comment :=
  match turns with
  | O => {| yielded := []; how := Unfinished; requests := []; after := w |}
  | S turns =>
      if (found <? count)%Z then
        let params := [("aweme_id", self_id); ("count", VInt 20); ("cursor", cursor)] in
        let '(got, w1) :=
          make_request comment_list_url params headers_kw session_index_kw w in
        match read_page parent_comment "comments" got with
        | (ys, Raise e) =>
            {| yielded := ys; how := Raised e; requests := [params]; after := w1 |}
        | (ys, Ok resp) =>
            let found := (found + Z.of_nat (length ys))%Z in
            match get resp "has_more" (VBool false) with
            | Raise e =>
                {| yielded := ys; how := Raised e; requests := [params]; after := w1 |}
            | Ok has_more =>
                if negb (truthy has_more)
                then {| yielded := ys; how := Returned; requests := [params]; after := w1 |}
                else
                  match get resp "cursor" VNone with
                  | Raise e =>
                      {| yielded := ys; how := Raised e; requests := [params];
                         after := w1 |}
                  | Ok cursor =>
                      and_then params ys
                        (comments_from turns self_id count found cursor
                           headers_kw session_index_kw w1)
                  end
            end
        end
      else {| yielded := []; how := Returned; requests := []; after := w |}
  end.

(** [Video.comments(count, cursor, headers=..., session_index=...)] *)
Definition comments (turns : nat) (v : Video) (count : Z)
    (cursor headers_kw session_index_kw : value) (w : World) : listing Comment :=
  comments_from turns (id v) count 0 cursor headers_kw session_index_kw w.

(** The [while found < count] loop of [related_videos]. *)
Fixpoint related_from (turns : nat) (self_id : value) (count found : Z)
    (headers_kw session_index_kw : value) (w : World) : listing RelatedVideo :=
  match turns with
  | O => {| yielded := []; how := Unfinished; requests := []; after := w |}
  | S turns =>
      if (found <? count)%Z then
        let params := [("itemID", self_id); ("count", VInt 16)] in
        let '(got, w1) :=
          make_request related_list_url params headers_kw session_index_kw w in
        match read_page parent_video "itemList" got with
        | (ys, Raise e) =>
            {| yielded := ys; how := Raised e; requests := [params]; after := w1 |}
        | (ys, Ok resp) =>
            and_then params ys
              (related_from turns self_id count (found + Z.of_nat (length ys))%Z
                 headers_kw session_index_kw w1)
        end
      else {| yielded := []; how := Returned; requests := []; after := w |}
  end.

(** [Video.related_videos(count, cursor, headers=..., session_index=...)];
    the [cursor] argument is not used. *)
Definition related_videos (turns : nat) (v : Video) (count : Z)
    (cursor headers_kw session_index_kw : value) (w : World) : listing RelatedVideo :=
  related_from turns (id v) count 0 headers_kw session_index_kw w.

(** *** Vocabulary of the statements about the generators *)

(** The parameters of a request of [comments]. *)
Definition asks_comments (self_id : value) (params : list (string * value)) : Prop :=
  dict_lookup "aweme_id" params = Some self_id
  /\ dict_lookup "count" params = Some (VInt 20).

(** The answers that make [comments] go on without yielding: a page
    with no comment in it, and more announced. *)
Definition stalls_comments (resp : value) : Prop :=
  exists p, resp = VDict p
            /\ dict_lookup "comments" p = Some (VList [])
            /\ truthy (default (VBool false) (dict_lookup "has_more" p)) = true.

(** The answers on which [related_videos] yields nothing: a mapping
    whose [itemList] is absent or empty. *)
Definition no_related (resp : value) : Prop :=
  exists p, resp = VDict p
            /\ (dict_lookup "itemList" p = None
                \/ dict_lookup "itemList" p = Some (VList [])).

End Construction.
Arguments yielded {_ _} _.
Arguments how {_ _} _.
Arguments requests {_ _} _.
Arguments after {_ _} _.

(** * Sample inputs *)

(** A 40-byte buffer with the signature at offset 4, as an MP4 file
    starts: a box size, [ftyp], then the brand and padding. *)
Definition mp4_head : bytestring :=
  [x00; x00; x00; x20] ++ ftyp ++ repeat x00 32.

(** The start of an HTML error page, as a CDN serves in place of media. *)
Definition html_head : bytestring :=
  [x3c; x68; x74; x6d; x6c; x3e].

(** A small tree and a store that holds it: the dict at 5 has a
    [downloadAddr] entry naming the string at 1 and an [other] entry
    naming the list at 4, whose elements are the string at 1 again and the
    dict at 3 with its own [downloadAddr]. *)
Definition sample_tree : value :=
  VDict [ ("downloadAddr", VStr "https://v16.example/a");
          ("other", VList [ VStr "https://v16.example/a";
                            VDict [ ("downloadAddr", VStr "https://v16.example/b") ] ]) ].

Definition sample_objects : gmap loc object :=
  {[ 1%positive := OStr "https://v16.example/a";
     2%positive := OStr "https://v16.example/b";
     3%positive := ODict [ ("downloadAddr", 2%positive) ];
     4%positive := OList [ 1%positive; 3%positive ];
     5%positive := ODict [ ("downloadAddr", 1%positive); ("other", 4%positive) ] ]}.

Definition sample_root : loc := 5%positive.

(** Compact JSON text of a tree whose strings need no escaping. *)
Fixpoint dumps (v : value) : string :=
  match v with
  | VNone => "null"
  | VBool b => if b then "true" else "false"
  | VInt z => pretty z
  | VFloat _ => "NaN"
  | VStr s => dq +:+ s +:+ dq
  | VList l => "[" +:+ String.concat ", " (map dumps l) +:+ "]"
  | VDict d =>
      "{" +:+ String.concat ", "
                (map (fun kv => dq +:+ fst kv +:+ dq +:+ ": " +:+ dumps (snd kv)) d)
      +:+ "}"
  end.

Definition video_id : string := "7041997751718137094".

(** An item as the site embeds it, cut down to a few fields. *)
Definition sample_item : list (string * value) :=
  [ ("id", VStr video_id);
    ("createTime", VStr "1639609681");
    ("author", VStr "davidteathercodes");
    ("video",
      VDict [ ("playAddr", VStr "https://v16.example/play");
              ("downloadAddr", VStr "https://v16.example/a");
              ("bitrateInfo",
                VList [ VDict [ ("downloadAddr", VStr "https://v16.example/b") ];
                        VDict [ ("downloadAddr", VStr "https://v16.example/c") ] ]) ]) ].

(** The same item without [createTime]. *)
Definition undated_item : list (string * value) :=
  [ ("id", VStr video_id); ("author", VStr "davidteathercodes") ].

Definition legacy_payload : value :=
  VDict [ ("ItemModule", VDict [ (video_id, VDict sample_item) ]) ].

Definition rehydration_payload : value :=
  VDict [ ("__DEFAULT_SCOPE__",
           VDict [ ("webapp.video-detail",
                    VDict [ ("statusCode", VInt 0);
                            ("itemInfo", VDict [ ("itemStruct", VDict sample_item) ]) ]) ]) ].

(** A payload that is JSON, and whose [itemInfo] is a sequence. *)
Definition odd_payload : value :=
  VDict [ ("__DEFAULT_SCOPE__",
           VDict [ ("webapp.video-detail",
                    VDict [ ("statusCode", VInt 0); ("itemInfo", VList []) ]) ]) ].

Definition page (marker : string) (payload : value) : string :=
  "<html><head>" +:+ marker +:+ dumps payload +:+ script_close +:+ "</head></html>".

Definition page_response (body : string) : Response :=
  {| status_code := 200; headers := {[ "Content-Type" := "text/html" ]};
     content := []; text := body; cookies := {[ "ttwid" := "1" ]} |}.

Definition legacy_page : Response := page_response (page SIGI_STATE legacy_payload).
Definition rehydration_page : Response := page_response (page UNIVERSAL_DATA rehydration_payload).
Definition odd_page : Response := page_response (page UNIVERSAL_DATA odd_payload).

(** A decoder that knows the sample payloads by their text. *)
Definition sample_loads (s : string) : option value :=
  List.find (fun t => String.eqb (dumps t) s)
    [legacy_payload; rehydration_payload; odd_payload].

(** Decimal digits, as [int] reads them. *)
Fixpoint digits_value (s : string) (acc : Z) : option Z :=
  match s with
  | EmptyString => Some acc
  | String c r =>
      let n := nat_of_ascii c in
      if (48 <=? n)%nat && (n <=? 57)%nat
      then digits_value r (10 * acc + Z.of_nat (n - 48))%Z
      else None
  end.

Definition sample_int_of_str (s : string) : option Z :=
  match s with
  | EmptyString => None
  | _ => digits_value s 0
  end.

Definition media_response (status : Z) (content_type : string) (body : bytestring) : Response :=
  {| status_code := status; headers := {[ "Content-Type" := content_type ]};
     content := body; text := ""; cookies := ∅ |}.

(** Three candidates: the first is refused, the second serves an HTML
    page under a video content type, the third serves the media. *)
Definition sample_site (url : string) : result Response :=
  if String.eqb url "https://v16.example/a" then Ok (media_response 403 "text/html" html_head)
  else if String.eqb url "https://v16.example/b" then Ok (media_response 200 "video/mp4" html_head)
  else if String.eqb url "https://v16.example/c" then Ok (media_response 200 "video/mp4" mp4_head)
  else Raise (TransportError "unreachable").

Definition sample_stream (url : string) : result StreamedResponse :=
  if String.eqb url "https://v16.example/a"
  then Ok {| stream_status_code := 403; aread := Ok html_head |}
  else if String.eqb url "https://v16.example/b"
  then Ok {| stream_status_code := 200; aread := Ok html_head |}
  else if String.eqb url "https://v16.example/c"
  then Ok {| stream_status_code := 200; aread := Ok mp4_head |}
  else Raise (TransportError "unreachable").

(** A host for the samples: the network state counts the requests made,
    a timestamp is kept as the integer it is, users are their names. *)
Definition sample_host : Host :=
  {| World := nat;
     requests_get := fun req w => (sample_site (req_url req), S w);
     client_stream := fun req w => (sample_stream (req_url req), S w);
     json_loads := sample_loads;
     int_of_str := sample_int_of_str;
     datetime := Z;
     fromtimestamp_int := fun z => Ok z;
     fromtimestamp_float := fun _ => Raise ValueError;
     User := string;
     Sound := unit;
     Hashtag := value;
     parent_user_username := fun name => Ok name;
     parent_user_data := fun _ => Ok "";
     parent_sound := fun _ => Ok tt;
     parent_hashtag := fun v => Ok v;
     str_of_user := fun name => name;
     str_of_value := fun v => match v with VStr s => s | _ => dumps v end |}.

Definition sample_session : Session :=
  {| session_headers := 1%positive; session_proxy := None; session_jar := 2%positive |}.

Definition sample_video (item : option value) : @Video sample_host :=
  {| id := VStr video_id;
     url := Some "https://www.tiktok.com/@davidteathercodes/video/7041997751718137094";
     create_time := None; stats := None; author := None; sound := None;
     hashtags := None; as_dict := item |}.

(** A session with a user agent in its headers and one cookie. *)
Definition sample_state (item : option value) : @State sample_host :=
  {| self := sample_video item;
     heap := {[ 1%positive := {[ "user-agent" := "Mozilla/5.0" ]};
                2%positive := {[ "msToken" := "x" ]} ]};
     net := 0%nat;
     trace := [] |}.

(** The item whose candidates all fail: only the first two sample URLs. *)
Definition failing_item : list (string * value) :=
  [ ("id", VStr video_id);
    ("video",
      VDict [ ("downloadAddr", VStr "https://v16.example/a");
              ("bitrateInfo",
                VList [ VDict [ ("downloadAddr", VStr "https://v16.example/b") ] ]) ]) ].

Definition page_state : @State sample_host := sample_state None.
Definition media_state : @State sample_host := sample_state (Some (VDict sample_item)).
Definition undated_state : @State sample_host := sample_state (Some (VDict undated_item)).
Definition failing_state : @State sample_host := sample_state (Some (VDict failing_item)).

(** * More sample inputs *)

(** A LEGACY payload whose item has no [createTime]. *)
Definition undated_payload : value :=
  VDict [ ("ItemModule", VDict [ (video_id, VDict undated_item) ]) ].

Definition undated_page : Response := page_response (page SIGI_STATE undated_payload).

Definition video_page_url : string :=
  "https://www.tiktok.com/@davidteathercodes/video/7041997751718137094".
Definition undated_page_url : string :=
  "https://www.tiktok.com/@davidteathercodes/video/7041997751718137095".

(** A page cut off inside its LEGACY payload, and a page with no
    payload at all. *)
Definition cut_page : Response :=
  page_response ("<html><head>" +:+ SIGI_STATE +:+ "{" +:+ dq +:+ "ItemModule").
Definition bare_page : Response := page_response "<html><head></head></html>".

(** The sample site with the two video pages added. *)
Definition web_site (url : string) : result Response :=
  if String.eqb url video_page_url then Ok legacy_page
  else if String.eqb url undated_page_url then Ok undated_page
  else sample_site url.

Definition web_loads (s : string) : option value :=
  List.find (fun t => String.eqb (dumps t) s)
    [legacy_payload; rehydration_payload; odd_payload; undated_payload].

Definition web_host : Host :=
  {| World := nat;
     requests_get := fun req w => (web_site (req_url req), S w);
     client_stream := fun req w => (sample_stream (req_url req), S w);
     json_loads := web_loads;
     int_of_str := sample_int_of_str;
     datetime := Z;
     fromtimestamp_int := fun z => Ok z;
     fromtimestamp_float := fun _ => Raise ValueError;
     User := string;
     Sound := unit;
     Hashtag := value;
     parent_user_username := fun name => Ok name;
     parent_user_data := fun _ => Ok "";
     parent_sound := fun _ => Ok tt;
     parent_hashtag := fun v => Ok v;
     str_of_user := fun name => name;
     str_of_value := fun v => match v with VStr s => s | _ => dumps v end |}.

(** A video that knows its url, in a session with a user agent and one
    cookie. *)
Definition web_video (u : string) : @Video web_host :=
  {| id := VStr video_id; url := Some u; create_time := None; stats := None;
     author := None; sound := None; hashtags := None; as_dict := None |}.

Definition web_state (u : string) : @State web_host :=
  {| self := web_video u;
     heap := {[ 1%positive := {[ "user-agent" := "Mozilla/5.0" ]};
                2%positive := {[ "msToken" := "x" ]} ]};
     net := 0%nat;
     trace := [] |}.

(** An item with two hashtags. *)
Definition tagged_item : list (string * value) :=
  [ ("id", VStr video_id);
    ("createTime", VInt 1639609681);
    ("statsV2", VDict []);
    ("stats", VDict [ ("diggCount", VInt 7) ]);
    ("author", VDict [ ("uniqueId", VStr "davidteathercodes") ]);
    ("challenges", VList [ VDict [ ("title", VStr "code") ];
                           VDict [ ("title", VStr "python") ] ]) ].

Definition tagged_state : @State sample_host := sample_state (Some (VDict tagged_item)).

(** An item with no [id]. *)
Definition anonymous_state : @State sample_host :=
  sample_state (Some (VDict [ ("author", VStr "davidteathercodes") ])).

(** A parent whose [make_request] gives the same answer to every
    request, and that keeps comments and videos as the data they are
    built from. *)
Definition sample_resolver (u : string) (h : gmap string string) (proxy : option string)
    (w : nat) : result value * nat :=
  (if str_in "/video/" u then Ok (VStr video_id) else Raise TypeError, S w).

Definition page_api (answer : value) : @Api sample_host :=
  @Build_Api sample_host value value sample_resolver
    (fun u params h i (w : nat) => (Ok answer, S w))
    (fun v => Ok v) (fun v => Ok v).

(** A page of three comments and two videos, the last page. *)
Definition last_page : value :=
  VDict [ ("comments", VList [ VStr "first"; VStr "second"; VStr "third" ]);
          ("itemList", VList [ VStr "7041997751718137001"; VStr "7041997751718137002" ]);
          ("has_more", VBool false) ].

(** A page of two comments and two videos, with more announced. *)
Definition steady_page : value :=
  VDict [ ("comments", VList [ VStr "first"; VStr "second" ]);
          ("itemList", VList [ VStr "7041997751718137001"; VStr "7041997751718137002" ]);
          ("has_more", VBool true);
          ("cursor", VInt 2) ].

(** An empty page, with more announced. *)
Definition empty_page : value :=
  VDict [ ("comments", VList []); ("has_more", VBool true); ("cursor", VInt 0) ].

(** A video with another id than the one the sample pages hold. *)
Definition stranger_video : @Video sample_host :=
  {| id := VStr "7041997751718137000"; url := None; create_time := None; stats := None;
     author := None; sound := None; hashtags := None; as_dict := None |}.

Definition stranger_state : @State sample_host :=
  {| self := stranger_video; heap := ∅; net := 0%nat; trace := [] |}.

(** The video that the sample item gives. *)
Definition derived_video : @Video sample_host :=
  {| id := VStr video_id;
     url := Some "https://www.tiktok.com/@davidteathercodes/video/7041997751718137094";
     create_time := Some (1639609681%Z : @datetime sample_host);
     stats := Some VNone;
     author := Some ("davidteathercodes" : @User sample_host);
     sound := Some (tt : @Sound sample_host);
     hashtags := Some ([] : list (@Hashtag sample_host)); as_dict := Some (VDict sample_item) |}.

(** * Properties *)

(** ** The container signature *)

Lemma startswith_firstn (p l : bytestring) :
  startswith p l = true <-> firstn (length p) l = p.
Proof.
  revert l; induction p as [|a p IH]; intros [|b l]; simpl; try easy.
  rewrite andb_true_iff, IH. split.
  - intros [Hab Hp]. apply Byte.byte_dec_bl in Hab. now subst; f_equal.
  - intros Heq. injection Heq as -> Hp. split; [apply Byte.byte_dec_lb; reflexivity | assumption].
Qed.

Lemma bytes_in_offset (needle hay : bytestring) :
  bytes_in needle hay = true <->
  exists i, firstn (length needle) (skipn i hay) = needle.
Proof.
  induction hay as [|b hay IH]; simpl.
  - rewrite orb_false_r, startswith_firstn. split.
    + intros Hs. now exists 0%nat.
    + intros [i Hi]. now rewrite skipn_nil in Hi.
  - rewrite orb_true_iff, startswith_firstn, IH. split.
    + intros [Hs | [i Hi]]; [now exists 0%nat | now exists (S i)].
    + intros [[|i] Hi]; [now left | right; now exists i].
Qed.

Lemma signature_window (b : bytestring) :
  bytes_in ftyp (firstn 32 b) = true <->
  exists i, (i + 4 <= 32)%nat /\ firstn 4 (skipn i b) = ftyp.
Proof.
  rewrite bytes_in_offset. change (length ftyp) with 4%nat.
  split; intros [i Hi].
  - rewrite List.skipn_firstn_comm, List.firstn_firstn in Hi.
    assert (Hlen : length (firstn (Nat.min 4 (32 - i)) (skipn i b)) = 4%nat)
      by now rewrite Hi.
    rewrite List.length_firstn in Hlen.
    exists i. split; [lia|].
    now replace (Nat.min 4 (32 - i)) with 4%nat in Hi by lia.
  - destruct Hi as [Hle Hi]. exists i.
    rewrite List.skipn_firstn_comm, List.firstn_firstn.
    now replace (Nat.min 4 (32 - i)) with 4%nat by lia.
Qed.

(** C7. The container validation succeeds exactly when the four bytes
    [ftyp] occur within the first 32 bytes of the buffer, that is at an
    offset [i] with [i + 4 <= 32]; it fails on ten zero bytes, and it
    succeeds on every 40-byte buffer that has [ftyp] at offset 4. *)
Theorem C7_container_signature :
  (forall b : bytestring,
      is_valid_container b = true <->
      exists i, (i + 4 <= 32)%nat /\ firstn 4 (skipn i b) = ftyp)
  /\ is_valid_container (repeat x00 10) = false
  /\ (forall b : bytestring,
         length b = 40%nat -> firstn 4 (skipn 4 b) = ftyp ->
         is_valid_container b = true).
Proof.
  assert (Hiff : forall b : bytestring,
             is_valid_container b = true <->
             exists i, (i + 4 <= 32)%nat /\ firstn 4 (skipn i b) = ftyp).
  { intros b. unfold is_valid_container, invalid_video.
    rewrite negb_orb, !negb_involutive, andb_true_iff, signature_window.
    split; [tauto|]. intros Hex. split; [|assumption].
    destruct Hex as [i [_ Hi]]. destruct b; [|reflexivity].
    now rewrite List.skipn_nil in Hi. }
  split; [exact Hiff|]. split; [reflexivity|].
  intros b _ Hb. apply Hiff. exists 4%nat. split; [lia | exact Hb].
Qed.

Lemma C7_container_signature_witness : is_valid_container mp4_head = true.
Proof.
  apply (proj2 (proj2 C7_container_signature) mp4_head); reflexivity.
Defined.

(** ** The URL collector *)

Lemma extract_url_lists_collect (t : value) : extract_url_lists t = collect t.
Proof.
  induction t as [| | | | |l IH|d IH] using value_tree_ind; try reflexivity.
  - simpl. induction IH as [|x l Hx _ IHl]; simpl; [reflexivity|].
    now rewrite Hx, IHl.
  - simpl. induction IH as [|[k v] d Hv _ IHd]; simpl; [reflexivity|].
    rewrite IHd. f_equal. simpl in Hv.
    destruct v; simpl; rewrite ?andb_false_r; try exact Hv.
    rewrite andb_true_r, List.app_nil_r. reflexivity.
Qed.

Lemma collect_holds (t : value) (s : string) : In s (collect t) -> holds t s.
Proof.
  revert s. induction t as [| | | | |l IH|d IH] using value_tree_ind; simpl; try tauto.
  - intros s Hin. apply List.in_flat_map in Hin as [x [Hx Hs]].
    rewrite List.Forall_forall in IH. eapply holds_list; eauto.
  - intros s Hin. apply List.in_flat_map in Hin as [[k v] [Hkv Hs]].
    rewrite List.Forall_forall in IH. simpl in Hs.
    apply List.in_app_or in Hs as [Hs|Hs].
    + destruct v; simpl in Hs; try tauto.
      destruct (String.eqb k "downloadAddr") eqn:Hk; simpl in Hs; [|tauto].
      destruct Hs as [->|[]]. apply String.eqb_eq in Hk. subst k.
      now apply holds_here.
    + eapply holds_dict; [exact Hkv|]. now apply (IH (k, v)).
Qed.

Lemma holds_collect (t : value) (s : string) : holds t s -> In s (collect t).
Proof.
  induction 1 as [d s Hin|d k v s Hin _ IH|l v s Hin _ IH]; simpl;
    apply List.in_flat_map.
  - exists ("downloadAddr", VStr s). split; [assumption|]. simpl. now left.
  - exists (k, v). split; [assumption|]. apply List.in_or_app. now right.
  - exists v. now split.
Qed.

(** *** The collector leaves the store it is given as it is *)

Lemma list_append_frame (h0 h : gmap loc object) (urls x : loc) :
  h0 !! urls = None -> h0 ⊆ h -> h0 ⊆ list_append urls x h.
Proof.
  intros Hfresh Hsub. unfold list_append.
  destruct (h !! urls) as [[]|]; try assumption. now apply insert_subseteq_r.
Qed.

Lemma list_extend_frame (h0 h : gmap loc object) (urls more : loc) :
  h0 !! urls = None -> h0 ⊆ h -> h0 ⊆ list_extend urls more h.
Proof.
  intros Hfresh Hsub. unfold list_extend.
  destruct (h !! urls) as [[]|]; try assumption.
  destruct (h !! more) as [[]|]; try assumption. now apply insert_subseteq_r.
Qed.

Section loops_frame.
Variable recurse : loc -> gmap loc object -> option (loc * gmap loc object).
Hypothesis recurse_frame : forall l h r h', recurse l h = Some (r, h') -> h ⊆ h'.

Lemma for_items_frame (h0 : gmap loc object) (urls : loc) (items : list (string * loc)) :
  h0 !! urls = None ->
  forall h h', h0 ⊆ h -> for_items recurse urls items h = Some h' -> h0 ⊆ h'.
Proof.
  intros Hfresh. induction items as [|[key value] rest IH]; intros h h' Hsub Hrun; simpl in Hrun.
  - now injection Hrun as <-.
  - destruct (String.eqb key "downloadAddr" && isinstance_str_at h value).
    + eapply IH; [|exact Hrun]. now apply list_append_frame.
    + destruct (recurse value h) as [[more h1]|] eqn:Hrec; [|discriminate].
      eapply IH; [|exact Hrun]. apply list_extend_frame; [assumption|].
      etransitivity; [exact Hsub | eapply recurse_frame; exact Hrec].
Qed.

Lemma for_elements_frame (h0 : gmap loc object) (urls : loc) (items : list loc) :
  h0 !! urls = None ->
  forall h h', h0 ⊆ h -> for_elements recurse urls items h = Some h' -> h0 ⊆ h'.
Proof.
  intros Hfresh. induction items as [|item rest IH]; intros h h' Hsub Hrun; simpl in Hrun.
  - now injection Hrun as <-.
  - destruct (recurse item h) as [[more h1]|] eqn:Hrec; [|discriminate].
    eapply IH; [|exact Hrun]. apply list_extend_frame; [assumption|].
    etransitivity; [exact Hsub | eapply recurse_frame; exact Hrec].
Qed.
End loops_frame.

Lemma fresh_unbound (h : gmap loc object) : h !! fresh (dom h) = None.
Proof. apply not_elem_of_dom, is_fresh. Qed.

(** Every object of the store before a call is the same object after
    it: the call only adds objects, its own lists. *)
Lemma extract_url_lists_at_frame (depth : nat) :
  forall data h urls h',
    extract_url_lists_at depth data h = Some (urls, h') -> h ⊆ h'.
Proof.
  induction depth as [|depth IH]; intros data h urls h' Hrun; [discriminate|].
  simpl in Hrun.
  assert (Hfresh := fresh_unbound h).
  assert (Hsub : h ⊆ <[fresh (dom h) := OList []]> h) by now apply insert_subseteq.
  destruct (h !! data) as [[| | | | |items|items]|];
    try (injection Hrun as <- <-; exact Hsub).
  - destruct (for_elements _ _ _ _) as [h1|] eqn:Hloop; [|discriminate].
    injection Hrun as <- <-.
    eapply for_elements_frame; [exact IH | exact Hfresh | exact Hsub | exact Hloop].
  - destruct (for_items _ _ _ _) as [h1|] eqn:Hloop; [|discriminate].
    injection Hrun as <- <-.
    eapply for_items_frame; [exact IH | exact Hfresh | exact Hsub | exact Hloop].
Qed.

(** *** The collector over the store computes the collector over trees *)

Lemma repr_mono (h h' : gmap loc object) (t : value) :
  h ⊆ h' -> forall l, repr h t l -> repr h' t l.
Proof.
  intros Hsub. induction t as [| | | | |ts IH|d IH] using value_tree_ind;
    intros l Hr; inversion Hr; subst.
  - apply repr_none; eapply lookup_weaken; eauto.
  - apply repr_bool; eapply lookup_weaken; eauto.
  - apply repr_int; eapply lookup_weaken; eauto.
  - apply repr_float; eapply lookup_weaken; eauto.
  - apply repr_str; eapply lookup_weaken; eauto.
  - eapply repr_list; [eapply lookup_weaken; eauto|].
    match goal with Hl : h !! l = _, Hall : Forall2 _ ts _ |- _ =>
      clear Hr Hl; induction Hall as [|t x ts' ls' Hx _ IHall] end.
    + constructor.
    + inversion IH; subst. constructor; auto.
  - eapply repr_dict; [eapply lookup_weaken; eauto|].
    match goal with Hl : h !! l = _, Hall : Forall2 _ d _ |- _ =>
      clear Hr Hl; induction Hall as [|kv kl d' ls' [Hk Hx] _ IHall] end.
    + constructor.
    + inversion IH; subst. constructor; auto.
Qed.

Lemma strings_at_mono (h h' : gmap loc object) (ls : list loc) (ss : list string) :
  h ⊆ h' -> strings_at h ls ss -> strings_at h' ls ss.
Proof.
  intros Hsub Hs. induction Hs; constructor; auto. eapply lookup_weaken; eauto.
Qed.

(** Growing the list [urls] does not touch a string. *)
Lemma strings_at_grow (h : gmap loc object) (urls : loc) (old new : list loc)
    (ls : list loc) (ss : list string) :
  h !! urls = Some (OList old) ->
  strings_at h ls ss -> strings_at (<[urls := OList new]> h) ls ss.
Proof.
  intros Hu Hs. induction Hs as [|l s ls ss Hl _ IH]; constructor; auto.
  rewrite lookup_insert_ne; [assumption | congruence].
Qed.

Section loops_refine.
Variable depth : nat.
Hypothesis calls :
  forall t data h,
    repr h t data -> (height t < depth)%nat ->
    exists urls h' ls,
      extract_url_lists_at depth data h = Some (urls, h')
      /\ h' !! urls = Some (OList ls)
      /\ strings_at h' ls (extract_url_lists t).

(** [urls.extend(extract_url_lists(value))] *)
Lemma extend_call (h0 h : gmap loc object) (urls : loc) (acc : list loc)
    (ss : list string) (t : value) (l : loc) :
  h0 !! urls = None -> h0 ⊆ h ->
  h !! urls = Some (OList acc) -> strings_at h acc ss ->
  repr h0 t l -> (height t < depth)%nat ->
  exists more h1 acc',
    extract_url_lists_at depth l h = Some (more, h1)
    /\ h0 ⊆ list_extend urls more h1
    /\ list_extend urls more h1 !! urls = Some (OList acc')
    /\ strings_at (list_extend urls more h1) acc' (ss ++ extract_url_lists t).
Proof.
  intros Hfresh Hsub Hu Hs Hr Hh.
  destruct (calls t l h (repr_mono _ _ _ Hsub _ Hr) Hh) as (more & h1 & rs & Hrun & Hm & Hrs).
  assert (Hframe := extract_url_lists_at_frame _ _ _ _ _ Hrun).
  assert (Hu1 : h1 !! urls = Some (OList acc)) by (eapply lookup_weaken; eauto).
  exists more, h1, (acc ++ rs). split; [exact Hrun|].
  unfold list_extend. rewrite Hu1, Hm. split; [|split].
  - apply insert_subseteq_r; [assumption | now transitivity h].
  - apply lookup_insert_eq.
  - apply Forall2_app; eapply strings_at_grow; eauto.
    eapply strings_at_mono; eauto.
Qed.

Lemma for_elements_refines (h0 : gmap loc object) (urls : loc)
    (ts : list value) (ls : list loc) :
  h0 !! urls = None ->
  Forall2 (repr h0) ts ls ->
  (fold_right (fun x n => Nat.max (height x) n) 0 ts < depth)%nat ->
  forall h acc ss,
    h0 ⊆ h -> h !! urls = Some (OList acc) -> strings_at h acc ss ->
    exists h' acc',
      for_elements (extract_url_lists_at depth) urls ls h = Some h'
      /\ h' !! urls = Some (OList acc')
      /\ strings_at h' acc' (ss ++ flat_map extract_url_lists ts).
Proof.
  intros Hfresh Hall. induction Hall as [|t l ts ls Hr _ IH]; intros Hh h acc ss Hsub Hu Hs.
  - exists h, acc. simpl. rewrite List.app_nil_r. auto.
  - simpl in Hh.
    destruct (extend_call h0 h urls acc ss t l) as (more & h1 & acc1 & Hrun & Hsub1 & Hu1 & Hs1);
      auto; [lia|].
    simpl. rewrite Hrun.
    destruct (IH ltac:(lia) _ _ _ Hsub1 Hu1 Hs1) as (h' & acc' & Hloop & Hu' & Hs').
    exists h', acc'. rewrite List.app_assoc. auto.
Qed.

Lemma for_items_refines (h0 : gmap loc object) (urls : loc)
    (d : list (string * value)) (ls : list (string * loc)) :
  h0 !! urls = None ->
  Forall2 (fun kv kl => fst kv = fst kl /\ repr h0 (snd kv) (snd kl)) d ls ->
  (fold_right (fun kv n => Nat.max (height (snd kv)) n) 0 d < depth)%nat ->
  forall h acc ss,
    h0 ⊆ h -> h !! urls = Some (OList acc) -> strings_at h acc ss ->
    exists h' acc',
      for_items (extract_url_lists_at depth) urls ls h = Some h'
      /\ h' !! urls = Some (OList acc')
      /\ strings_at h' acc' (ss ++ extract_url_lists (VDict d)).
Proof.
  intros Hfresh Hall.
  induction Hall as [|[k v] [k' l] d ls [Hk Hr] _ IH]; intros Hh h acc ss Hsub Hu Hs.
  - exists h, acc. simpl. rewrite List.app_nil_r. auto.
  - simpl in Hk, Hr, Hh. subst k'.
    assert (Hstr : isinstance_str_at h l = isinstance_str v).
    { unfold isinstance_str_at.
      assert (Hr' := repr_mono _ _ _ Hsub _ Hr).
      inversion Hr'; subst; simpl;
        match goal with Hl : h !! l = _ |- _ => rewrite Hl end; reflexivity. }
    change (extract_url_lists (VDict ((k, v) :: d)))
      with ((if String.eqb k "downloadAddr" && isinstance_str v
             then match v with VStr s => [s] | _ => [] end
             else extract_url_lists v) ++ extract_url_lists (VDict d)).
    simpl for_items. rewrite Hstr.
    destruct (String.eqb k "downloadAddr" && isinstance_str v) eqn:Hbranch.
    + apply andb_true_iff in Hbranch as [_ Hv].
      destruct v; try discriminate Hv.
      assert (Hl : h !! l = Some (OStr s))
        by (eapply lookup_weaken; [|exact Hsub]; now inversion Hr).
      assert (Hsub1 : h0 ⊆ list_append urls l h) by now apply list_append_frame.
      unfold list_append in *. rewrite Hu in *.
      destruct (IH ltac:(lia) _ (acc ++ [l]) (ss ++ [s]) Hsub1) as (h' & acc' & Hloop & Hu' & Hs').
      * apply lookup_insert_eq.
      * apply Forall2_app; [eapply strings_at_grow; eauto|].
        constructor; [|constructor].
        rewrite lookup_insert_ne; [assumption | congruence].
      * exists h', acc'. rewrite List.app_assoc. auto.
    + destruct (extend_call h0 h urls acc ss v l) as (more & h1 & acc1 & Hrun & Hsub1 & Hu1 & Hs1);
        auto; [lia|].
      rewrite Hrun.
      destruct (IH ltac:(lia) _ _ _ Hsub1 Hu1 Hs1) as (h' & acc' & Hloop & Hu' & Hs').
      exists h', acc'. rewrite List.app_assoc. auto.
Qed.
End loops_refine.

(** With enough depth for the tree at [data], the call returns a new
    list of references to the strings that the collector over trees
    returns. *)
Lemma extract_url_lists_at_refines (depth : nat) :
  forall t data h,
    repr h t data -> (height t < depth)%nat ->
    exists urls h' ls,
      extract_url_lists_at depth data h = Some (urls, h')
      /\ h' !! urls = Some (OList ls)
      /\ strings_at h' ls (extract_url_lists t).
Proof.
  induction depth as [|depth IH]; intros t data h Hr Hh; [lia|].
  assert (Hfresh := fresh_unbound h).
  assert (Hsub : h ⊆ <[fresh (dom h) := OList []]> h) by now apply insert_subseteq.
  assert (Hu : <[fresh (dom h) := OList []]> h !! fresh (dom h) = Some (OList []))
    by apply lookup_insert_eq.
  simpl extract_url_lists_at.
  inversion Hr; subst;
    match goal with Hl : h !! data = _ |- _ => rewrite Hl end;
    try (eexists _, _, []; repeat split; [exact Hu | constructor]).
  - destruct (for_elements_refines depth IH h (fresh (dom h)) ts ls Hfresh)
      with (h := <[fresh (dom h) := OList []]> h) (acc := @nil loc) (ss := @nil string)
      as (h' & acc' & Hloop & Hu' & Hs'); auto; [simpl in Hh; lia | constructor |].
    rewrite Hloop. exists (fresh (dom h)), h', acc'. auto.
  - destruct (for_items_refines depth IH h (fresh (dom h)) d ls Hfresh)
      with (h := <[fresh (dom h) := OList []]> h) (acc := @nil loc) (ss := @nil string)
      as (h' & acc' & Hloop & Hu' & Hs'); auto; [simpl in Hh; lia | constructor |].
    rewrite Hloop. exists (fresh (dom h)), h', acc'. auto.
Qed.

(** C8. On every tree the collector returns what the specification's
    collector returns (same strings, same order, same multiplicities): the
    strings held under the key [downloadAddr], with every mapping value and
    every sequence element descended into; a string is in the result exactly
    when some [downloadAddr] field of the tree holds it; the result is empty
    on a node that is neither mapping nor sequence and on a tree with no
    such field.  Run on a store that holds the tree at [data], with enough
    depth for the tree, the call returns a new list of references to these
    strings, leaves every object of the store as it was, and the tree at
    [data] is the same tree afterwards. *)
Theorem C8_url_collector (t : value) :
  extract_url_lists t = collect t
  /\ (forall s, In s (extract_url_lists t) <-> holds t s)
  /\ ((forall d, t <> VDict d) -> (forall l, t <> VList l) -> extract_url_lists t = [])
  /\ ((forall s, ~ holds t s) -> extract_url_lists t = [])
  /\ (forall (depth : nat) (h : gmap loc object) (data : loc),
         repr h t data -> (height t < depth)%nat ->
         exists urls h' ls,
           extract_url_lists_at depth data h = Some (urls, h')
           /\ h ⊆ h'
           /\ repr h' t data
           /\ h !! urls = None
           /\ h' !! urls = Some (OList ls)
           /\ strings_at h' ls (extract_url_lists t)).
Proof.
  assert (Hmem : forall s, In s (extract_url_lists t) <-> holds t s).
  { intros s. rewrite extract_url_lists_collect.
    split; [apply collect_holds | apply holds_collect]. }
  split; [apply extract_url_lists_collect|]. split; [exact Hmem|]. split; [|split].
  - intros Hd Hl. destruct t; try reflexivity; [now destruct (Hl items) | now destruct (Hd items)].
  - intros Hno. destruct (extract_url_lists t) as [|s r] eqn:E; [reflexivity|].
    destruct (Hno s). apply Hmem. now left.
  - intros depth h data Hr Hh.
    destruct (extract_url_lists_at_refines depth t data h Hr Hh) as (urls & h' & ls & Hrun & Hu & Hs).
    assert (Hframe := extract_url_lists_at_frame _ _ _ _ _ Hrun).
    exists urls, h', ls. repeat split; auto.
    + eapply repr_mono; eauto.
    + destruct depth; [discriminate|]. simpl in Hrun.
      assert (Hfresh := fresh_unbound h).
      destruct (h !! data) as [[]|]; simpl in Hrun;
        repeat match type of Hrun with
               | match ?x with _ => _ end = _ => destruct x; try discriminate
               end;
        injection Hrun as <- _; exact Hfresh.
Qed.

(** ** Page-state extraction *)

Section Extraction.
Context `{Host}.

Lemma add_events_add_events (a b : list event) (st : State) :
  add_events b (add_events a st) = add_events (a ++ b) st.
Proof. unfold add_events; simpl. now rewrite <- List.app_assoc. Qed.

Lemma add_events_nil (st : State) : add_events [] st = st.
Proof. destruct st; unfold add_events; simpl. now rewrite List.app_nil_r. Qed.

Lemma markers_differ :
  Scan SIGI_STATE <> Scan UNIVERSAL_DATA /\ Scan script_close <> Scan UNIVERSAL_DATA.
Proof. split; discriminate. Qed.

Ltac run :=
  unfold extract, extract_sigi, extract_universal, scan, tell, loads, lift, read, raise,
    mbind, M_bind, mret, M_ret; simpl.

(** C3. Take a page with status 200 in which the LEGACY open marker is
    found, a close marker follows it, and the text between them decodes
    to a mapping whose [ItemModule] maps the video's id to a mapping [X].
    The extraction returns [X] as it is, and the markers it has scanned
    for are the LEGACY open marker and the close marker: the REHYDRATION
    marker is not among them.  On every page, the REHYDRATION marker is
    scanned for only if the search for the LEGACY open marker gave -1. *)
Theorem C3_legacy_extraction :
  (forall (r : Response) (st : State) (start end_ : Z) (item_id : string)
          (d m X : list (string * value)),
      status_code r = 200%Z ->
      find (text r) SIGI_STATE 0 = start -> start <> (-1)%Z ->
      find (text r) script_close (start + len SIGI_STATE) = end_ -> end_ <> (-1)%Z ->
      json_loads (slice (text r) (start + len SIGI_STATE) end_) = Some (VDict d) ->
      dict_lookup "ItemModule" d = Some (VDict m) ->
      id (self st) = VStr item_id ->
      dict_lookup item_id m = Some (VDict X) ->
      extract r st = (Ok (VDict X), add_events [Scan SIGI_STATE; Scan script_close] st)
      /\ ~ In (Scan UNIVERSAL_DATA) [Scan SIGI_STATE; Scan script_close])
  /\ (forall (r : Response) (st : State),
         exists evs, snd (extract r st) = add_events evs st
                     /\ (In (Scan UNIVERSAL_DATA) evs -> find (text r) SIGI_STATE 0 = (-1)%Z)).
Proof.
  split.
  - intros r st start end_ item_id d m X Hst Hs Hs1 He He1 Hj Hd Hid Hm.
    split.
    + run. rewrite Hst. simpl. rewrite Hs.
      destruct (Z.eqb_spec start (-1)); [contradiction|]. simpl.
      rewrite He. destruct (Z.eqb_spec end_ (-1)); [contradiction|].
      rewrite Hj. simpl. rewrite Hd. rewrite Hid. simpl. rewrite Hm.
      now rewrite add_events_add_events.
    + simpl. destruct markers_differ. intuition congruence.
  - intros r st. run.
    destruct (Z.eqb_spec (status_code r) 200); simpl.
    2:{ exists []. split; [now rewrite add_events_nil | intros []]. }
    destruct (Z.eqb_spec (find (text r) SIGI_STATE 0) (-1)) as [Hf|Hf]; simpl.
    + repeat match goal with
             | |- context [match ?x with _ => _ end] => destruct x eqn:?; simpl
             end;
        (eexists; split; [rewrite ?add_events_add_events; reflexivity | intros _; exact Hf]).
    + exists [Scan SIGI_STATE; Scan script_close]. split.
      * repeat match goal with
               | |- context [match ?x with _ => _ end] => destruct x eqn:?; simpl
               end; rewrite ?add_events_add_events; reflexivity.
      * simpl. destruct markers_differ. intuition congruence.
Qed.

(** C4, amended. Take a page with status 200 that has no LEGACY
    marker and has the REHYDRATION markers around text that decodes, to a
    payload that is a mapping and in which [__DEFAULT_SCOPE__],
    [webapp.video-detail] and [itemInfo], where present, are mappings.
    If [statusCode] is there and differs from 0, or [itemStruct] is
    absent or null, the extraction fails with an invalid-response
    exception carrying the status 200; otherwise it returns the value
    under [itemStruct]. *)
Theorem C4_rehydration_extraction
    (r : Response) (st : State) (start end_ : Z) (data : value) :
  status_code r = 200%Z ->
  find (text r) SIGI_STATE 0 = (-1)%Z ->
  find (text r) UNIVERSAL_DATA 0 = start -> start <> (-1)%Z ->
  find (text r) script_close (start + len UNIVERSAL_DATA) = end_ -> end_ <> (-1)%Z ->
  json_loads (slice (text r) (start + len UNIVERSAL_DATA) end_) = Some data ->
  mappings_on_path data = true ->
  (status_is_zero data = false \/ item_struct_of data = None
   \/ item_struct_of data = Some VNone ->
   fst (extract r st) = Raise (InvalidResponseException (Some 200%Z)))
  /\ (forall item,
         status_is_zero data = true -> item_struct_of data = Some item -> item <> VNone ->
         fst (extract r st) = Ok item).
Proof.
  intros Hst Hs Hu Hu1 He He1 Hj Hshape.
  assert (Hrun : fst (extract r st) =
                 if status_is_zero data
                 then match item_struct_of data with
                      | Some VNone | None => Raise (InvalidResponseException (Some 200%Z))
                      | Some item => Ok item
                      end
                 else Raise (InvalidResponseException (Some 200%Z))).
  { run. rewrite Hst. simpl. rewrite Hs. simpl. rewrite Hu.
    destruct (Z.eqb_spec start (-1)); [contradiction|]. simpl.
    rewrite He. destruct (Z.eqb_spec end_ (-1)); [contradiction|].
    rewrite Hj. simpl.
    unfold mappings_on_path, status_is_zero, item_struct_of, item_info_of, status_of,
      video_detail_of, default_scope_of, invalid_response in *.
    rewrite Hst.
    destruct data as [| | | | | |d]; try discriminate Hshape. simpl in *.
    destruct (dict_lookup "__DEFAULT_SCOPE__" d) as [[| | | | | |ds]|]; simpl in *;
      try discriminate Hshape.
    - destruct (dict_lookup "webapp.video-detail" ds) as [[| | | | | |vd]|]; simpl in *;
        try discriminate Hshape; [|reflexivity].
      destruct (dict_lookup "statusCode" vd) as [sc|]; simpl.
      + destruct (ne_zero sc); simpl; [reflexivity|].
        destruct (dict_lookup "itemInfo" vd) as [[| | | | | |ii]|]; simpl in *;
          try discriminate Hshape; [|reflexivity].
        destruct (dict_lookup "itemStruct" ii) as [[]|]; reflexivity.
      + destruct (dict_lookup "itemInfo" vd) as [[| | | | | |ii]|]; simpl in *;
          try discriminate Hshape; [|reflexivity].
        destruct (dict_lookup "itemStruct" ii) as [[]|]; reflexivity.
    - reflexivity. }
  rewrite Hrun. split.
  - intros [Hz|[Hi|Hi]]; rewrite ?Hz, ?Hi; try reflexivity;
      destruct (status_is_zero data); reflexivity.
  - intros item Hz Hi Hne. rewrite Hz, Hi. destruct item; congruence.
Qed.
End Extraction.

(** ** Field derivation *)

Section Normalization.
Context `{Host}.

Ltac run :=
  unfold extract_from_data, read_as_dict, modify_self, lift, read, raise,
    mbind, M_bind, mret, M_ret; simpl.

(** A [createTime] that [int] accepts is converted: the timestamp handed
    to [datetime.fromtimestamp] is that integer. *)
Lemma coerce_timestamp_int (v : value) (z : Z) :
  v <> VNone -> py_int v = Ok z ->
  coerce_timestamp v ≫= fromtimestamp = fromtimestamp_int z.
Proof.
  intros Hv Hz. unfold coerce_timestamp.
  destruct v; try congruence; simpl in *; rewrite ?Hz; simpl;
    try reflexivity; congruence.
Qed.

(** What [int] refuses with a [ValueError] is handed on as it is. *)
Lemma coerce_timestamp_str (s : string) :
  int_of_str s = None -> coerce_timestamp (VStr s) = Ok (VStr s).
Proof. intros Hs. unfold coerce_timestamp. simpl. now rewrite Hs. Qed.

(** C9. The field derivation does not treat [createTime] as optional.
    On an item that has an [id] and whose [createTime] is absent, or
    null, or a string that [int] refuses, [__extract_from_data] raises a
    [TypeError]: the value reaches [datetime.fromtimestamp], which is
    called whatever the guard before it found.  The state it leaves has
    [id] assigned and nothing else. *)
Theorem C9_create_time_not_optional
    (st : State) (d : list (string * value)) (i : value) :
  as_dict (self st) = Some (VDict d) ->
  dict_lookup "id" d = Some i ->
  (dict_lookup "createTime" d = None
   \/ dict_lookup "createTime" d = Some VNone
   \/ exists s, dict_lookup "createTime" d = Some (VStr s) /\ int_of_str s = None) ->
  extract_from_data st = (Raise TypeError, snd (modify_self (set_id i) st)).
Proof.
  intros Hd Hi Hc. run. rewrite Hd. simpl. rewrite Hi.
  destruct Hc as [Hc|[Hc|[s [Hc Hs]]]]; rewrite Hc; simpl; try reflexivity.
  unfold coerce_timestamp. simpl. rewrite Hs. reflexivity.
Qed.

(** [Video.info], once the page is fetched and the item [X] extracted:
    [as_dict] becomes [X], the fields are derived from it, and [X] is
    returned when that derivation succeeds; the response's cookies are
    then merged into the session's jar. *)
Lemma info_after_extract
    (session : Session) (proxy_kw : option string) (st st1 : State)
    (u : string) (r : Response) (w : World) (X : value) :
  url (self st) = Some u ->
  requests_get
    {| req_url := u; req_headers := deref st (session_headers session);
       req_cookies := ∅;
       req_proxies := match proxy_kw with Some p => Some p | None => session_proxy session end |}
    (net st) = (Ok r, w) ->
  extract r (fetched u w st) = (Ok X, st1) ->
  info session proxy_kw st =
  match extract_from_data (snd (modify_self (set_as_dict X) st1)) with
  | (Ok _, st2) =>
      (Ok X, store (session_jar session) (cookies r ∪ deref st2 (session_jar session)) st2)
  | (Raise e, st2) => (Raise e, st2)
  end.
Proof.
  intros Hu Hget Hx.
  unfold info, load, http_get, set_session_cookies, mbind, M_bind, mret, M_ret, read.
  simpl. rewrite Hu. simpl. rewrite Hget. simpl. rewrite Hx. simpl.
  destruct (extract_from_data _) as [[[]|e] st2]; reflexivity.
Qed.
End Normalization.

(** ** Media retrieval *)

Section Retrieval.
Context `{Host}.

Ltac run :=
  unfold bytes, read_as_dict, get_session_cookies, setitem, load, attempt, http_get,
    http_stream, modify_self, lift, read, raise, mbind, M_bind, mret, M_ret; simpl.

(** One turn of the whole-body loop. *)
Lemma download_loop_step (url : string) (rest : list string) (h : loc)
    (cookies : gmap string string) (st : State) :
  download_loop (url :: rest) h cookies st =
  let '(got, w) := requests_get (candidate_request url h cookies st) (net st) in
  match download got with
  | Ok body => (Ok (MBytes body), fetched url w st)
  | Raise _ => download_loop rest h cookies (fetched url w st)
  end.
Proof.
  simpl. run. unfold candidate_request, fetched.
  destruct (requests_get _ _) as [got w]. destruct (download got); reflexivity.
Qed.

(** One turn of the streaming loop. *)
Lemma stream_loop_step (url : string) (rest : list string) (h : loc)
    (cookies : gmap string string) (st : State) :
  stream_loop (url :: rest) h cookies st =
  let '(opened, w) := client_stream (candidate_request url h cookies st) (net st) in
  match anext (stream_bytes opened) with
  | Ok (first, gen) => (Ok (MStream (valid_stream_generator first gen)), fetched url w st)
  | Raise _ => stream_loop rest h cookies (fetched url w st)
  end.
Proof.
  simpl. run. unfold candidate_request, fetched.
  destruct (client_stream _ _) as [opened w].
  destruct (anext (stream_bytes opened)) as [[first gen]|[]]; reflexivity.
Qed.

Lemma download_candidate (got : result Response) :
  download got =
  if candidate_succeeds got
  then match got with Ok response => Ok (content response) | Raise e => Raise e end
  else match got with
       | Ok response =>
           if (status_code response =? 200)%Z
              && str_in "video" (default "" (headers response !! "Content-Type"))
           then Raise StopIteration
           else Raise (InvalidResponseException None)
       | Raise e => Raise e
       end.
Proof.
  destruct got as [response|e]; [|reflexivity].
  unfold download, candidate_succeeds, is_valid_container. simpl.
  destruct ((status_code response =? 200)%Z && str_in _ _); [|reflexivity].
  simpl. destruct (invalid_video (content response)); reflexivity.
Qed.

Lemma yield_from_id (gen : agen) : yield_from gen = gen.
Proof. induction gen; simpl; congruence. Qed.

Lemma chunks_of_yield_each (chunks : list bytestring) (k : agen) :
  chunks_of (yield_each chunks k) = chunks ++ chunks_of k.
Proof. induction chunks; simpl; congruence. Qed.

(** The generator of a candidate that succeeds: the first chunk, then
    the chunks of a second iteration over the response. *)
Lemma stream_bytes_valid (r : StreamedResponse) (body chunk : bytestring) :
  aread r = Ok body ->
  stream_status_code r = 200%Z ->
  first_chunk_of body = Some chunk ->
  is_valid_container chunk = true ->
  stream_bytes (Ok r) = GYield chunk (yield_each (aiter_bytes body) GStop).
Proof.
  intros Hread Hstatus Hfirst Hvalid.
  unfold stream_bytes. rewrite Hread, Hstatus. simpl.
  unfold first_chunk_of in Hfirst.
  destruct (aiter_bytes body) as [|c tl]; [discriminate|].
  injection Hfirst as ->. unfold is_valid_container in Hvalid.
  apply negb_true_iff in Hvalid. now rewrite Hvalid.
Qed.

(** The generator of a candidate that fails ends at once, by a return or
    by an exception. *)
Lemma stream_failure (opened : result StreamedResponse) :
  stream_succeeds opened = false -> exists e, anext (stream_bytes opened) = Raise e.
Proof.
  destruct opened as [r|e]; [|simpl; eauto].
  unfold stream_succeeds, stream_bytes, first_chunk_of, is_valid_container.
  destruct (aread r) as [body|e]; [|simpl; eauto].
  destruct (stream_status_code r =? 200)%Z; [|simpl; eauto]. simpl.
  destruct (aiter_bytes body) as [|chunk tl]; [simpl; eauto|].
  intros Hv. apply negb_false_iff in Hv. rewrite Hv. simpl; eauto.
Qed.

Lemma deref_store_eq (l : loc) (d : gmap string string) (st : State) :
  deref (store l d st) l = d.
Proof. unfold deref, store; simpl. now rewrite lookup_insert_eq. Qed.

Lemma deref_store_ne (l l' : loc) (d : gmap string string) (st : State) :
  l <> l' -> deref (store l d st) l' = deref st l'.
Proof. intros Hne. unfold deref, store; simpl. now rewrite lookup_insert_ne. Qed.

Lemma store_store (l : loc) (d1 d2 : gmap string string) (st : State) :
  store l d2 (store l d1 st) = store l d2 st.
Proof. unfold store; simpl. now rewrite insert_insert_eq. Qed.

(** [Video.bytes], once the item is there: the loop of the chosen mode,
    over the collected URLs, with the cookies read before and the
    headers written into the session's own mapping. *)
Lemma bytes_prepared (stream : bool) (session : Session) (st : State) (data : value) :
  as_dict (self st) = Some data ->
  bytes stream session st =
  (if stream then stream_loop else download_loop)
    (extract_url_lists data) (session_headers session)
    (deref st (session_jar session)) (prepared session st).
Proof.
  intros Hd. run. rewrite Hd. simpl.
  rewrite !deref_store_eq, !store_store. unfold prepared, request_headers.
  destruct stream; reflexivity.
Qed.

(** Both loops end by returning; they leave the video and the store as
    they are, and request a prefix of the candidates, each once, in list
    order: all of them when nothing is returned. *)
Lemma loop_frame (stream : bool) (urls : list string) (h : loc)
    (cookies : gmap string string) (st : State) :
  exists (n : nat) (m : media) (st' : State),
    (if stream then stream_loop else download_loop) urls h cookies st = (Ok m, st')
    /\ (n <= length urls)%nat
    /\ trace st' = trace st ++ map Fetch (firstn n urls)
    /\ self st' = self st /\ heap st' = heap st
    /\ (m = MNone -> n = length urls)
    /\ (m <> MNone -> n <> 0%nat).
Proof.
  revert st. induction urls as [|url rest IH]; intros st.
  - exists 0%nat, MNone, st. destruct stream; simpl;
      (split; [reflexivity|]); rewrite List.app_nil_r; intuition.
  - assert (Hdone : forall m w,
               m <> MNone ->
               exists (n : nat) (m' : media) (st' : State),
                 (Ok m, fetched url w st) = (Ok m', st')
                 /\ (n <= length (url :: rest))%nat
                 /\ trace st' = trace st ++ map Fetch (firstn n (url :: rest))
                 /\ self st' = self st /\ heap st' = heap st
                 /\ (m' = MNone -> n = length (url :: rest))
                 /\ (m' <> MNone -> n <> 0%nat)).
    { intros m w Hm. exists 1%nat, m, (fetched url w st). simpl.
      repeat split; try reflexivity; try lia; intuition. }
    assert (Hnext : forall w,
               exists (n : nat) (m' : media) (st' : State),
                 (if stream then stream_loop else download_loop) rest h cookies
                   (fetched url w st) = (Ok m', st')
                 /\ (n <= length (url :: rest))%nat
                 /\ trace st' = trace st ++ map Fetch (firstn n (url :: rest))
                 /\ self st' = self st /\ heap st' = heap st
                 /\ (m' = MNone -> n = length (url :: rest))
                 /\ (m' <> MNone -> n <> 0%nat)).
    { intros w. destruct (IH (fetched url w st)) as (n & m & st' & Hrun & Hn & Htr & Hs & Hh & Hnone & _).
      exists (S n), m, st'. simpl in *. rewrite Htr, <- List.app_assoc. simpl.
      repeat split; auto; try lia; try (intros Hm; now rewrite (Hnone Hm)). }
    destruct stream.
    + rewrite stream_loop_step. destruct (client_stream _ _) as [opened w].
      destruct (anext (stream_bytes opened)) as [[first gen]|e];
        [apply Hdone; discriminate | apply (Hnext w)].
    + rewrite download_loop_step. destruct (requests_get _ _) as [got w].
      destruct (download got) as [body|e];
        [apply Hdone; discriminate | apply (Hnext w)].
Qed.

Lemma concat_aiter_bytes (body : bytestring) : concat (aiter_bytes body) = body.
Proof. destruct body; simpl; [reflexivity|]. now rewrite List.app_nil_r. Qed.

Lemma first_chunk_is_body (body chunk : bytestring) :
  first_chunk_of body = Some chunk -> chunk = body /\ body <> [].
Proof.
  unfold first_chunk_of, aiter_bytes. destruct body; [discriminate|].
  intros [= <-]. split; [reflexivity | discriminate].
Qed.

(** C1. In streaming mode, take a candidate that answers 200, whose
    body was read, and whose first chunk passes the container validation.
    The loop returns a stream for it; its chunks are the first chunk
    followed by all the chunks of a second iteration over the response.
    That second iteration starts at the first byte again, so the bytes
    the caller receives are the body twice over, and never the body of
    the response itself: the validated first chunk is duplicated. *)
Theorem C1_stream_repeats_body
    (url : string) (rest : list string) (h : loc) (cookies : gmap string string)
    (st : State) (r : StreamedResponse) (w : World) (body chunk : bytestring) :
  client_stream (candidate_request url h cookies st) (net st) = (Ok r, w) ->
  aread r = Ok body ->
  stream_status_code r = 200%Z ->
  first_chunk_of body = Some chunk ->
  is_valid_container chunk = true ->
  exists gen,
    stream_loop (url :: rest) h cookies st = (Ok (MStream gen), fetched url w st)
    /\ chunks_of gen = chunk :: aiter_bytes body
    /\ concat (chunks_of gen) = body ++ body
    /\ concat (chunks_of gen) <> body.
Proof.
  intros Hopen Hread Hstatus Hfirst Hvalid.
  rewrite stream_loop_step, Hopen,
    (stream_bytes_valid _ _ _ Hread Hstatus Hfirst Hvalid). simpl.
  eexists. split; [reflexivity|].
  unfold valid_stream_generator. rewrite yield_from_id. simpl.
  rewrite chunks_of_yield_each. simpl. rewrite List.app_nil_r.
  destruct (first_chunk_is_body _ _ Hfirst) as [-> Hne].
  split; [reflexivity|]. simpl. rewrite concat_aiter_bytes.
  split; [reflexivity|].
  intros Heq. apply (f_equal (@length byte)) in Heq.
  rewrite List.length_app in Heq. destruct body; [congruence | simpl in Heq; lia].
Qed.

(** C2. In streaming mode, take a candidate whose body was read and
    whose first chunk is absent or fails the container validation.  Its
    generator yields no chunk at all, and the loop goes on with the
    remaining candidates, in order, from the state the attempt left. *)
Theorem C2_invalid_first_chunk_skipped
    (url : string) (rest : list string) (h : loc) (cookies : gmap string string)
    (st : State) (r : StreamedResponse) (w : World) (body : bytestring) :
  client_stream (candidate_request url h cookies st) (net st) = (Ok r, w) ->
  aread r = Ok body ->
  (first_chunk_of body = None
   \/ exists chunk, first_chunk_of body = Some chunk /\ is_valid_container chunk = false) ->
  chunks_of (stream_bytes (Ok r)) = []
  /\ stream_loop (url :: rest) h cookies st
     = stream_loop rest h cookies (fetched url w st).
Proof.
  intros Hopen Hread Hbad.
  assert (Hfail : stream_succeeds (Ok r) = false).
  { unfold stream_succeeds. rewrite Hread.
    destruct Hbad as [->|[chunk [-> ->]]]; apply andb_false_r. }
  split.
  - unfold stream_bytes. rewrite Hread.
    destruct (negb _); [reflexivity|].
    unfold first_chunk_of in Hbad. unfold is_valid_container in Hbad.
    destruct (aiter_bytes body) as [|c tl].
    + reflexivity.
    + destruct Hbad as [Hb|[chunk [[= <-] Hb]]]; [discriminate|].
      apply negb_false_iff in Hb. now rewrite Hb.
  - rewrite stream_loop_step, Hopen.
    destruct (stream_failure _ Hfail) as [e ->]. reflexivity.
Qed.

(** C5. In whole-body mode: an attempt gives a body exactly when the
    candidate succeeds, that is answers with status 200, a [Content-Type]
    containing [video] and a body that passes the container validation,
    and the body is the response's full content; when the first candidate
    succeeds the loop returns its content after that one request; when it
    fails, by any of the conditions or by an exception of the transport,
    the loop goes on with the remaining candidates; and on every list the
    requests made are a prefix of the candidates, each once, in list
    order, all of them when nothing is returned. *)
Theorem C5_whole_body_fallback :
  (forall (got : result Response) (body : bytestring),
      download got = Ok body <->
      candidate_succeeds got = true /\ exists response, got = Ok response /\ body = content response)
  /\ (forall url rest h cookies (st : State) response w,
         requests_get (candidate_request url h cookies st) (net st) = (Ok response, w) ->
         candidate_succeeds (Ok response) = true ->
         download_loop (url :: rest) h cookies st
         = (Ok (MBytes (content response)), fetched url w st))
  /\ (forall url rest h cookies (st : State) got w,
         requests_get (candidate_request url h cookies st) (net st) = (got, w) ->
         candidate_succeeds got = false ->
         download_loop (url :: rest) h cookies st
         = download_loop rest h cookies (fetched url w st))
  /\ (forall urls h cookies (st : State),
         exists (n : nat) (m : media) (st' : State),
           download_loop urls h cookies st = (Ok m, st')
           /\ (n <= length urls)%nat
           /\ trace st' = trace st ++ map Fetch (firstn n urls)
           /\ (m = MNone -> n = length urls)).
Proof.
  split; [|split; [|split]].
  - intros got body. rewrite download_candidate.
    destruct (candidate_succeeds got) eqn:Hc.
    + destruct got as [response|e]; [|discriminate]. split.
      * intros [= <-]. eauto.
      * intros [_ [response' [[= <-] ->]]]. reflexivity.
    + split; [|intros [? _]; discriminate].
      destruct got as [response|e]; [|discriminate].
      destruct (_ && _); discriminate.
  - intros url rest h cookies st response w Hget Hok.
    rewrite download_loop_step, Hget, download_candidate, Hok. reflexivity.
  - intros url rest h cookies st got w Hget Hfail.
    rewrite download_loop_step, Hget, download_candidate, Hfail.
    destruct got as [response|e]; [destruct (_ && _)|]; reflexivity.
  - intros urls h cookies st.
    destruct (loop_frame false urls h cookies st) as (n & m & st' & Hrun & Hn & Htr & _ & _ & Hnone & _).
    exists n, m, st'. auto.
Qed.

Lemma exhausted_loop (stream : bool) (urls : list string) (h : loc)
    (cookies : gmap string string) (st : State) :
  every_candidate_fails stream urls h cookies st ->
  fst ((if stream then stream_loop else download_loop) urls h cookies st) = Ok MNone.
Proof.
  revert st. induction urls as [|url rest IH]; intros st Hall.
  - destruct stream; reflexivity.
  - simpl in Hall. destruct stream.
    + rewrite stream_loop_step. destruct (client_stream _ _) as [opened w].
      destruct Hall as [Hf Hall]. destruct (stream_failure _ Hf) as [e ->].
      now apply IH.
    + rewrite download_loop_step. destruct (requests_get _ _) as [got w].
      destruct Hall as [Hf Hall]. rewrite download_candidate, Hf.
      destruct got as [response|e]; [destruct (_ && _)|]; now apply IH.
Qed.

(** C6, amended. Once the item is set, [Video.bytes] never raises, in
    either mode: it returns.  When no candidate is found it returns
    [None] at once, and when every candidate fails, by validation or by
    transport, it returns [None] as well: no failure is surfaced. *)
Theorem C6_exhaustion_returns_nothing
    (stream : bool) (session : Session) (st : State) (data : value) :
  as_dict (self st) = Some data ->
  (exists m, fst (bytes stream session st) = Ok m)
  /\ (extract_url_lists data = [] ->
      bytes stream session st = (Ok MNone, prepared session st))
  /\ (every_candidate_fails stream (extract_url_lists data) (session_headers session)
        (deref st (session_jar session)) (prepared session st) ->
      fst (bytes stream session st) = Ok MNone).
Proof.
  intros Hd. rewrite (bytes_prepared _ _ _ _ Hd). split; [|split].
  - destruct (loop_frame stream (extract_url_lists data) (session_headers session)
                (deref st (session_jar session)) (prepared session st))
      as (n & m & st' & Hrun & _).
    exists m. now rewrite Hrun.
  - intros ->. destruct stream; reflexivity.
  - apply exhausted_loop.
Qed.

(** C10, amended. A call of [Video.bytes], in either mode, leaves the
    video object as it is and changes one object of the store, the
    session's own header mapping: [range], [accept-encoding] and
    [referer] are written into it, its other entries stay.  Every other
    object is unchanged, the session's cookie jar among them. *)
Theorem C10_session_frame
    (stream : bool) (session : Session) (st : State) (data : value) :
  as_dict (self st) = Some data ->
  self (snd (bytes stream session st)) = self st
  /\ heap (snd (bytes stream session st))
     = <[session_headers session := request_headers (deref st (session_headers session))]>
         (heap st)
  /\ (forall l, l <> session_headers session ->
                heap (snd (bytes stream session st)) !! l = heap st !! l)
  /\ (session_jar session <> session_headers session ->
      deref (snd (bytes stream session st)) (session_jar session)
      = deref st (session_jar session)).
Proof.
  intros Hd. rewrite (bytes_prepared _ _ _ _ Hd).
  destruct (loop_frame stream (extract_url_lists data) (session_headers session)
              (deref st (session_jar session)) (prepared session st))
    as (n & m & st' & Hrun & _ & _ & Hself & Hheap & _).
  rewrite Hrun. simpl. rewrite Hself, Hheap. unfold deref. rewrite Hheap.
  unfold prepared, store; simpl.
  repeat split.
  - intros l Hl. now rewrite lookup_insert_ne.
  - intros Hl. rewrite lookup_insert_ne; [reflexivity | congruence].
Qed.
End Retrieval.

(** ** The statements at the sample inputs *)

Lemma C8_url_collector_witness :
  exists urls h' ls,
    extract_url_lists_at 4 sample_root sample_objects = Some (urls, h')
    /\ sample_objects ⊆ h'
    /\ repr h' sample_tree sample_root
    /\ sample_objects !! urls = None
    /\ h' !! urls = Some (OList ls)
    /\ strings_at h' ls (extract_url_lists sample_tree).
Proof.
  apply (proj2 (proj2 (proj2 (proj2 (C8_url_collector sample_tree))))); [|vm_compute; lia].
  eapply repr_dict; [reflexivity|].
  constructor; [split; [reflexivity | apply repr_str; reflexivity]|].
  constructor; [split; [reflexivity|]|constructor].
  eapply repr_list; [reflexivity|].
  constructor; [apply repr_str; reflexivity|].
  constructor; [|constructor].
  eapply repr_dict; [reflexivity|].
  constructor; [split; [reflexivity | apply repr_str; reflexivity]|constructor].
Defined.

Lemma C3_legacy_extraction_witness :
  @extract sample_host legacy_page page_state
  = (Ok (VDict sample_item), add_events [Scan SIGI_STATE; Scan script_close] page_state).
Proof.
  apply (proj1 (proj1 (@C3_legacy_extraction sample_host) legacy_page page_state
                  12%Z 384%Z video_id
                  [("ItemModule", VDict [(video_id, VDict sample_item)])]
                  [(video_id, VDict sample_item)] sample_item
                  ltac:(reflexivity) ltac:(vm_compute; reflexivity) ltac:(lia)
                  ltac:(vm_compute; reflexivity) ltac:(lia)
                  ltac:(vm_compute; reflexivity) ltac:(reflexivity)
                  ltac:(reflexivity) ltac:(vm_compute; reflexivity))).
Defined.

Lemma C4_rehydration_extraction_witness :
  fst (@extract sample_host rehydration_page page_state) = Ok (VDict sample_item).
Proof.
  apply (proj2 (@C4_rehydration_extraction sample_host rehydration_page page_state
                  12%Z 462%Z rehydration_payload
                  ltac:(reflexivity) ltac:(vm_compute; reflexivity)
                  ltac:(vm_compute; reflexivity) ltac:(lia)
                  ltac:(vm_compute; reflexivity) ltac:(lia)
                  ltac:(vm_compute; reflexivity) ltac:(reflexivity))
           (VDict sample_item));
    [reflexivity | reflexivity | discriminate].
Defined.

(** C4 as stated fails on a document whose payload decodes and whose
    [itemInfo] is a sequence: there is no [itemStruct] under it, and the
    extraction ends in an [AttributeError], not in an invalid-response
    failure. *)
Lemma C4_counterexample :
  status_code odd_page = 200%Z
  /\ find (text odd_page) SIGI_STATE 0 = (-1)%Z
  /\ find (text odd_page) UNIVERSAL_DATA 0 = 12%Z
  /\ find (text odd_page) script_close (12 + len UNIVERSAL_DATA) = 165%Z
  /\ sample_loads (slice (text odd_page) (12 + len UNIVERSAL_DATA) 165) = Some odd_payload
  /\ status_is_zero odd_payload = true
  /\ item_struct_of odd_payload = None
  /\ fst (@extract sample_host odd_page page_state) = Raise AttributeError
  /\ ~ (exists code,
          fst (@extract sample_host odd_page page_state)
          = Raise (InvalidResponseException code)).
Proof.
  assert (Hrun : fst (@extract sample_host odd_page page_state) = Raise AttributeError)
    by (vm_compute; reflexivity).
  repeat split; try (vm_compute; reflexivity).
  rewrite Hrun. intros [code Hc]. discriminate Hc.
Qed.

Lemma C9_create_time_not_optional_witness :
  @extract_from_data sample_host undated_state
  = (Raise TypeError, snd (modify_self (set_id (VStr video_id)) undated_state)).
Proof.
  apply (@C9_create_time_not_optional sample_host undated_state undated_item (VStr video_id));
    [reflexivity | reflexivity | left; reflexivity].
Defined.

Lemma C1_stream_repeats_body_witness :
  exists gen,
    @stream_loop sample_host ["https://v16.example/c"] 1%positive ∅ media_state
    = (Ok (MStream gen), @fetched sample_host "https://v16.example/c" 1%nat media_state)
    /\ chunks_of gen = mp4_head :: aiter_bytes mp4_head
    /\ concat (chunks_of gen) = mp4_head ++ mp4_head
    /\ concat (chunks_of gen) <> mp4_head.
Proof.
  apply (@C1_stream_repeats_body sample_host "https://v16.example/c" [] 1%positive ∅
           media_state {| stream_status_code := 200; aread := Ok mp4_head |} 1%nat
           mp4_head mp4_head);
    reflexivity.
Defined.

Lemma C2_invalid_first_chunk_skipped_witness :
  chunks_of (stream_bytes
               (Ok {| stream_status_code := 200; aread := Ok html_head |})) = []
  /\ @stream_loop sample_host ["https://v16.example/b"; "https://v16.example/c"]
       1%positive ∅ media_state
     = @stream_loop sample_host ["https://v16.example/c"] 1%positive ∅
         (@fetched sample_host "https://v16.example/b" 1%nat media_state).
Proof.
  apply (@C2_invalid_first_chunk_skipped sample_host "https://v16.example/b"
           ["https://v16.example/c"] 1%positive ∅ media_state
           {| stream_status_code := 200; aread := Ok html_head |} 1%nat html_head);
    [reflexivity | reflexivity |].
  right. exists html_head. split; reflexivity.
Defined.

Lemma C5_whole_body_fallback_witness :
  @download_loop sample_host
    ["https://v16.example/a"; "https://v16.example/b"; "https://v16.example/c"]
    1%positive ∅ media_state
  = (Ok (MBytes mp4_head),
     @fetched sample_host "https://v16.example/c" 3%nat
       (@fetched sample_host "https://v16.example/b" 2%nat
          (@fetched sample_host "https://v16.example/a" 1%nat media_state))).
Proof.
  destruct (@C5_whole_body_fallback sample_host) as (_ & Hwin & Hskip & _).
  rewrite (Hskip "https://v16.example/a" _ 1%positive ∅ media_state
             (Ok (media_response 403 "text/html" html_head)) 1%nat);
    [|reflexivity|reflexivity].
  rewrite (Hskip "https://v16.example/b" _ 1%positive ∅ _
             (Ok (media_response 200 "video/mp4" html_head)) 2%nat);
    [|reflexivity|reflexivity].
  apply (Hwin "https://v16.example/c" [] 1%positive ∅ _
           (media_response 200 "video/mp4" mp4_head) 3%nat);
    reflexivity.
Defined.

(** C6 as stated fails where no candidate is found, and where every
    candidate fails: in both modes the call returns [None], it does not
    raise. *)
Lemma C6_counterexample :
  extract_url_lists (VDict undated_item) = []
  /\ fst (@bytes sample_host false sample_session undated_state) = Ok MNone
  /\ fst (@bytes sample_host true sample_session undated_state) = Ok MNone
  /\ fst (@bytes sample_host false sample_session failing_state) = Ok MNone
  /\ fst (@bytes sample_host true sample_session failing_state) = Ok MNone
  /\ ~ (exists e, fst (@bytes sample_host true sample_session undated_state) = Raise e).
Proof.
  repeat split; try (vm_compute; reflexivity).
  intros [e He]. vm_compute in He. discriminate He.
Qed.

Lemma C6_exhaustion_returns_nothing_witness :
  fst (@bytes sample_host true sample_session failing_state) = Ok MNone.
Proof.
  apply (proj2 (proj2 (@C6_exhaustion_returns_nothing sample_host true sample_session
                         failing_state (VDict failing_item) ltac:(reflexivity)))).
  simpl. repeat split; reflexivity.
Defined.

(** C10 as stated fails on any call: the session's own header mapping
    has no [range] entry before the call and has one after it. *)
Lemma C10_counterexample :
  deref media_state (session_headers sample_session) !! "range" = None
  /\ deref (snd (@bytes sample_host false sample_session media_state))
       (session_headers sample_session) !! "range" = Some "bytes=0-"
  /\ heap (snd (@bytes sample_host false sample_session media_state)) <> heap media_state.
Proof.
  assert (Hafter : deref (snd (@bytes sample_host false sample_session media_state))
                     (session_headers sample_session) !! "range" = Some "bytes=0-")
    by (vm_compute; reflexivity).
  split; [vm_compute; reflexivity|]. split; [exact Hafter|].
  intros Heq. unfold deref in Hafter. rewrite Heq in Hafter.
  vm_compute in Hafter. discriminate Hafter.
Qed.

Lemma C10_session_frame_witness :
  deref (snd (@bytes sample_host true sample_session media_state))
    (session_jar sample_session)
  = deref media_state (session_jar sample_session).
Proof.
  apply (proj2 (proj2 (proj2 (@C10_session_frame sample_host true sample_session
                                media_state (VDict sample_item) ltac:(reflexivity))))).
  discriminate.
Defined.

(** * Further properties of the file *)

(** ** [Video.info]: failures of the page-state extraction *)

Section ExtractionFailures.
Context `{Host}.

Ltac run :=
  unfold extract, extract_sigi, extract_universal, scan, tell, loads, lift, read, raise,
    mbind, M_bind, mret, M_ret; simpl.

(** X1. A page whose status is not 200 makes [info] raise the
    invalid-response exception with that status: the page is requested,
    no marker is scanned for, and the video and the store stay as they
    were. *)
Theorem info_bad_status
    (session : Session) (proxy_kw : option string) (st : State)
    (u : string) (r : Response) (w : World) :
  url (self st) = Some u ->
  requests_get
    {| req_url := u; req_headers := deref st (session_headers session);
       req_cookies := ∅;
       req_proxies := match proxy_kw with Some p => Some p | None => session_proxy session end |}
    (net st) = (Ok r, w) ->
  status_code r <> 200%Z ->
  info session proxy_kw st
  = (Raise (InvalidResponseException (Some (status_code r))), fetched u w st).
Proof.
  intros Hu Hget Hs.
  unfold info, load, http_get, mbind, M_bind, mret, M_ret, read. simpl.
  rewrite Hu. simpl. rewrite Hget. simpl. run.
  destruct (Z.eqb_spec (status_code r) 200); [contradiction|]. reflexivity.
Qed.

(** X2. When the LEGACY open marker is found and no close marker
    follows it, the extraction fails with the invalid-response exception
    at once: the REHYDRATION marker is not looked for, whatever else the
    page holds. *)
Theorem legacy_unclosed (r : Response) (st : State) (start : Z) :
  status_code r = 200%Z ->
  find (text r) SIGI_STATE 0 = start -> start <> (-1)%Z ->
  find (text r) script_close (start + len SIGI_STATE) = (-1)%Z ->
  extract r st
  = (Raise (InvalidResponseException (Some 200%Z)),
     add_events [Scan SIGI_STATE; Scan script_close] st).
Proof.
  intros Hst Hs Hs1 He. run. rewrite Hst. simpl. rewrite Hs.
  destruct (Z.eqb_spec start (-1)); [contradiction|]. simpl.
  rewrite He. simpl. unfold invalid_response. rewrite Hst.
  now rewrite add_events_add_events.
Qed.

(** X3. Without the LEGACY open marker, a page that lacks the
    REHYDRATION open marker, or has it with no close marker after it,
    fails with the invalid-response exception, after the scans made in
    that order. *)
Theorem rehydration_markers_missing (r : Response) (st : State) :
  status_code r = 200%Z ->
  find (text r) SIGI_STATE 0 = (-1)%Z ->
  (find (text r) UNIVERSAL_DATA 0 = (-1)%Z ->
   extract r st
   = (Raise (InvalidResponseException (Some 200%Z)),
      add_events [Scan SIGI_STATE; Scan UNIVERSAL_DATA] st))
  /\ (forall start,
         find (text r) UNIVERSAL_DATA 0 = start -> start <> (-1)%Z ->
         find (text r) script_close (start + len UNIVERSAL_DATA) = (-1)%Z ->
         extract r st
         = (Raise (InvalidResponseException (Some 200%Z)),
            add_events [Scan SIGI_STATE; Scan UNIVERSAL_DATA; Scan script_close] st)).
Proof.
  intros Hst Hs. split.
  - intros Hu. run. rewrite Hst. simpl. rewrite Hs. simpl. rewrite Hu. simpl.
    unfold invalid_response. rewrite Hst. now rewrite add_events_add_events.
  - intros start Hu Hu1 He. run. rewrite Hst. simpl. rewrite Hs. simpl. rewrite Hu.
    destruct (Z.eqb_spec start (-1)); [contradiction|]. simpl. rewrite He. simpl.
    unfold invalid_response. rewrite Hst. now rewrite !add_events_add_events.
Qed.

(** X4. With the LEGACY markers in place, what is wrong with the
    payload comes out as the Python error itself, not as an
    invalid-response exception: a [JSONDecodeError] when the text does not
    decode, a [KeyError] for [ItemModule] when the decoded mapping has no
    such entry, a [KeyError] for the video's id when [ItemModule] does not
    hold it.  The REHYDRATION marker is not looked for in any of these
    cases. *)
Theorem legacy_payload_failures
    (r : Response) (st : State) (start end_ : Z) :
  status_code r = 200%Z ->
  find (text r) SIGI_STATE 0 = start -> start <> (-1)%Z ->
  find (text r) script_close (start + len SIGI_STATE) = end_ -> end_ <> (-1)%Z ->
  (json_loads (slice (text r) (start + len SIGI_STATE) end_) = None ->
   extract r st
   = (Raise JSONDecodeError, add_events [Scan SIGI_STATE; Scan script_close] st))
  /\ (forall d,
         json_loads (slice (text r) (start + len SIGI_STATE) end_) = Some (VDict d) ->
         dict_lookup "ItemModule" d = None ->
         extract r st
         = (Raise (KeyError (VStr "ItemModule")),
            add_events [Scan SIGI_STATE; Scan script_close] st))
  /\ (forall d m item_id,
         json_loads (slice (text r) (start + len SIGI_STATE) end_) = Some (VDict d) ->
         dict_lookup "ItemModule" d = Some (VDict m) ->
         id (self st) = VStr item_id ->
         dict_lookup item_id m = None ->
         extract r st
         = (Raise (KeyError (VStr item_id)),
            add_events [Scan SIGI_STATE; Scan script_close] st)).
Proof.
  intros Hst Hs Hs1 He He1.
  assert (Hrun : extract r st =
                 match (data ← loads (slice (text r) (start + len SIGI_STATE) end_);
                        m ← getitem data (VStr "ItemModule");
                        getitem m (id (self st))) with
                 | Ok x => (Ok x, add_events [Scan SIGI_STATE; Scan script_close] st)
                 | Raise e => (Raise e, add_events [Scan SIGI_STATE; Scan script_close] st)
                 end).
  { run. rewrite Hst. simpl. rewrite Hs.
    destruct (Z.eqb_spec start (-1)); [contradiction|]. simpl.
    rewrite He. destruct (Z.eqb_spec end_ (-1)); [contradiction|].
    rewrite add_events_add_events. simpl.
    destruct (json_loads _) as [data|]; simpl; [|reflexivity].
    destruct (getitem data (VStr "ItemModule")) as [m|e]; simpl; [|reflexivity].
    destruct (getitem m (id (self st))); reflexivity. }
  rewrite Hrun. unfold loads. split; [|split].
  - intros ->. reflexivity.
  - intros d -> Hd. simpl. rewrite Hd. reflexivity.
  - intros d m item_id -> Hd Hid Hm. simpl. rewrite Hd. simpl. rewrite Hid. simpl.
    rewrite Hm. reflexivity.
Qed.
End ExtractionFailures.

(** ** [Video.__extract_from_data] *)

Section Derivation.
Context `{Host}.

Ltac run :=
  unfold extract_from_data, read_as_dict, modify_self, lift, read, raise,
    mbind, M_bind, mret, M_ret; simpl.

Ltac cases :=
  repeat match goal with
         | |- context [match ?x with _ => _ end] => destruct x eqn:?; simpl
         end.

(** X5. On an item that has an [id], a [createTime] that [int] accepts
    and [datetime.fromtimestamp] converts, and whose author, sound and
    hashtags the parent builds, the derivation succeeds and sets every
    field: [id] from the item, the creation time from the coerced
    integer, [stats] from [statsV2] when that is truthy and from [stats]
    otherwise, one hashtag per element of [challenges] in order, and the
    URL built from the author and the id.  Whatever [url] held before is
    overwritten; the store, the network and the trace are untouched. *)
Theorem extract_from_data_success
    (st : State) (d : list (string * value)) (i ts : value) (z : Z) (t : datetime)
    (u : User) (s : Sound) (items : list value) (hs : list Hashtag) :
  as_dict (self st) = Some (VDict d) ->
  dict_lookup "id" d = Some i ->
  dict_lookup "createTime" d = Some ts -> ts <> VNone ->
  py_int ts = Ok z -> fromtimestamp_int z = Ok t ->
  user_of (default VNone (dict_lookup "author" d)) = Ok u ->
  parent_sound (VDict d) = Ok s ->
  iterate (default (VList []) (dict_lookup "challenges" d)) = Ok items ->
  comprehension parent_hashtag items = Ok hs ->
  extract_from_data st
  = (Ok tt,
     with_self
       {| id := i; url := Some (video_url u i); create_time := Some t;
          stats := Some (stats_of d); author := Some u; sound := Some s;
          hashtags := Some hs; as_dict := Some (VDict d) |} st).
Proof.
  intros Hd Hi Hts Hnn Hz Ht Hu Hs Hit Hhs.
  destruct st as [[vid vurl vct vstats va vs vh vad] hp nt tr]. simpl in Hd. subst vad.
  run. rewrite Hi, Hts.
  unfold coerce_timestamp. replace (is_none ts) with false by (now destruct ts).
  simpl. rewrite Hz. simpl. rewrite Ht. simpl.
  unfold user_of in Hu. unfold stats_of, with_self, video_url. simpl.
  unfold default, Datatypes.id in *.
  destruct (truthy _); simpl;
    rewrite Hu; simpl; rewrite Hs; simpl; rewrite Hit; simpl; rewrite Hhs; reflexivity.
Qed.

(** What the derivation computes from the item, when it succeeds. *)
Lemma extract_from_data_runs
    (st : State) (d : list (string * value)) (i ts : value) (t : datetime)
    (u : User) (s : Sound) (items : list value) (hs : list Hashtag) :
  as_dict (self st) = Some (VDict d) ->
  dict_lookup "id" d = Some i ->
  coerce_timestamp (default VNone (dict_lookup "createTime" d)) = Ok ts ->
  fromtimestamp ts = Ok t ->
  user_of (default VNone (dict_lookup "author" d)) = Ok u ->
  parent_sound (VDict d) = Ok s ->
  iterate (default (VList []) (dict_lookup "challenges" d)) = Ok items ->
  comprehension parent_hashtag items = Ok hs ->
  extract_from_data st
  = (Ok tt,
     with_self
       {| id := i; url := Some (video_url u i); create_time := Some t;
          stats := Some (stats_of d); author := Some u; sound := Some s;
          hashtags := Some hs; as_dict := Some (VDict d) |} st).
Proof.
  intros Hd Hi Hts Ht Hu Hs Hit Hhs.
  destruct st as [[vid vurl vct vstats va vs vh vad] hp nt tr]. simpl in Hd. subst vad.
  run. rewrite Hi. unfold default, Datatypes.id in *. rewrite Hts. simpl. rewrite Ht. simpl.
  unfold user_of in Hu. unfold stats_of, with_self, video_url. simpl.
  unfold default, Datatypes.id in *.
  destruct (truthy _); simpl;
    rewrite Hu; simpl; rewrite Hs; simpl; rewrite Hit; simpl; rewrite Hhs; reflexivity.
Qed.

(** A derivation that succeeds went that way. *)
Lemma extract_from_data_inv (st st1 : State) :
  extract_from_data st = (Ok tt, st1) ->
  exists d i ts t u s items hs,
    as_dict (self st) = Some (VDict d)
    /\ dict_lookup "id" d = Some i
    /\ coerce_timestamp (default VNone (dict_lookup "createTime" d)) = Ok ts
    /\ fromtimestamp ts = Ok t
    /\ user_of (default VNone (dict_lookup "author" d)) = Ok u
    /\ parent_sound (VDict d) = Ok s
    /\ iterate (default (VList []) (dict_lookup "challenges" d)) = Ok items
    /\ comprehension parent_hashtag items = Ok hs
    /\ st1 = with_self
               {| id := i; url := Some (video_url u i); create_time := Some t;
                  stats := Some (stats_of d); author := Some u; sound := Some s;
                  hashtags := Some hs; as_dict := Some (VDict d) |} st.
Proof.
  intros Hrun.
  destruct (as_dict (self st)) as [data|] eqn:Hd.
  2:{ revert Hrun. run. rewrite Hd. discriminate. }
  destruct data as [| | | | | |d];
    try (revert Hrun; run; rewrite Hd; simpl; discriminate).
  destruct (dict_lookup "id" d) as [i|] eqn:Hi.
  2:{ revert Hrun. run. rewrite Hd. simpl. rewrite Hi. discriminate. }
  destruct (coerce_timestamp (default VNone (dict_lookup "createTime" d))) as [ts|e] eqn:Hts.
  2:{ revert Hrun. run. rewrite Hd. simpl. rewrite Hi.
      unfold default, Datatypes.id in *. rewrite Hts. discriminate. }
  destruct (fromtimestamp ts) as [t|e] eqn:Ht.
  2:{ revert Hrun. run. rewrite Hd. simpl. rewrite Hi.
      unfold default, Datatypes.id in *. rewrite Hts. simpl. rewrite Ht. discriminate. }
  destruct (user_of (default VNone (dict_lookup "author" d))) as [u|e] eqn:Hu.
  2:{ revert Hrun. run. rewrite Hd. simpl. rewrite Hi.
      unfold user_of, default, Datatypes.id in *. rewrite Hts. simpl. rewrite Ht. simpl.
      destruct (truthy _); simpl; rewrite Hu; discriminate. }
  destruct (parent_sound (VDict d)) as [s|e] eqn:Hs.
  2:{ revert Hrun. run. rewrite Hd. simpl. rewrite Hi.
      unfold user_of, default, Datatypes.id in *. rewrite Hts. simpl. rewrite Ht. simpl.
      destruct (truthy _); simpl; rewrite Hu; simpl; rewrite Hs; discriminate. }
  destruct (iterate (default (VList []) (dict_lookup "challenges" d))) as [items|e] eqn:Hit.
  2:{ revert Hrun. run. rewrite Hd. simpl. rewrite Hi.
      unfold user_of, default, Datatypes.id in *. rewrite Hts. simpl. rewrite Ht. simpl.
      destruct (truthy _); simpl; rewrite Hu; simpl; rewrite Hs; simpl; rewrite Hit;
        discriminate. }
  destruct (comprehension parent_hashtag items) as [hs|e] eqn:Hhs.
  2:{ revert Hrun. run. rewrite Hd. simpl. rewrite Hi.
      unfold user_of, default, Datatypes.id in *. rewrite Hts. simpl. rewrite Ht. simpl.
      destruct (truthy _); simpl; rewrite Hu; simpl; rewrite Hs; simpl; rewrite Hit; simpl;
        rewrite Hhs; discriminate. }
  exists d, i, ts, t, u, s, items, hs. repeat split; auto.
  rewrite (extract_from_data_runs st d i ts t u s items hs) in Hrun; auto.
  now injection Hrun as <-.
Qed.

(** X6. Deriving the fields a second time changes nothing: a
    derivation that succeeded succeeds again on the state it left, and
    leaves that state. *)
Theorem extract_from_data_idempotent (st st1 : State) :
  extract_from_data st = (Ok tt, st1) -> extract_from_data st1 = (Ok tt, st1).
Proof.
  intros Hrun.
  destruct (extract_from_data_inv _ _ Hrun)
    as (d & i & ts & t & u & s & items & hs & Hd & Hi & Hts & Ht & Hu & Hs & Hit & Hhs & ->).
  rewrite (extract_from_data_runs _ d i ts t u s items hs); auto.
Qed.

Lemma comprehension_each {A B} (f : A -> result B) (l : list A) (ys : list B) :
  comprehension f l = Ok ys -> Forall2 (fun x y => f x = Ok y) l ys.
Proof.
  revert ys. induction l as [|x l IH]; intros ys; simpl.
  - intros [= <-]. constructor.
  - unfold mbind, result_bind, mret, result_ret.
    destruct (f x) as [y|e] eqn:Hx; [|discriminate].
    destruct (comprehension f l) as [ys'|e] eqn:Hl; [|discriminate].
    intros [= <-]. constructor; auto.
Qed.

(** X7. After a derivation that succeeds, [hashtags] holds one hashtag
    for each element that iterating [challenges] visits (none when the
    entry is absent), in that order, each built by the parent from its
    element. *)
Theorem hashtags_follow_challenges
    (st st1 : State) (d : list (string * value)) :
  as_dict (self st) = Some (VDict d) ->
  extract_from_data st = (Ok tt, st1) ->
  exists items hs,
    iterate (default (VList []) (dict_lookup "challenges" d)) = Ok items
    /\ hashtags (self st1) = Some hs
    /\ Forall2 (fun c h => parent_hashtag c = Ok h) items hs.
Proof.
  intros Hd Hrun.
  destruct (extract_from_data_inv _ _ Hrun)
    as (d' & i & ts & t & u & s & items & hs & Hd' & Hi & Hts & Ht & Hu & Hs & Hit & Hhs & ->).
  rewrite Hd in Hd'. injection Hd' as <-.
  exists items, hs. repeat split; auto. now apply comprehension_each.
Qed.

(** X8. Without an [id] entry the derivation raises a [KeyError] for
    [id] and assigns nothing; on an item that is not a mapping at all it
    raises a [TypeError], likewise before any assignment. *)
Theorem extract_from_data_requires_id (st : State) (data : value) :
  as_dict (self st) = Some data ->
  (forall d, data = VDict d -> dict_lookup "id" d = None ->
             extract_from_data st = (Raise (KeyError (VStr "id")), st))
  /\ ((forall d, data <> VDict d) -> extract_from_data st = (Raise TypeError, st)).
Proof.
  intros Hd. split.
  - intros d -> Hi. run. rewrite Hd. simpl. now rewrite Hi.
  - intros Hn. run. rewrite Hd. simpl.
    destruct data; try reflexivity. now destruct (Hn items).
Qed.
End Derivation.

(** ** [Video.info] as a whole *)

Section Info.
Context `{Host}.

Ltac cases :=
  repeat match goal with
         | |- context [truthy ?v] => destruct (truthy v) eqn:?; simpl
         | |- context [match ?x with _ => _ end] => destruct x eqn:?; simpl
         end.

(** The extraction only adds to the trace. *)
Lemma extract_adds_events (r : Response) (st : State) :
  exists evs, snd (extract r st) = add_events evs st.
Proof.
  unfold extract, extract_sigi, extract_universal, scan, tell, loads, lift, read, raise,
    mbind, M_bind, mret, M_ret; simpl.
  cases; rewrite ?add_events_add_events; try (eexists; reflexivity).
  exists []. now rewrite add_events_nil.
Qed.

(** The derivation touches the video object only, and not its
    [as_dict]. *)
Lemma extract_from_data_frame (st : State) :
  heap (snd (extract_from_data st)) = heap st
  /\ net (snd (extract_from_data st)) = net st
  /\ trace (snd (extract_from_data st)) = trace st
  /\ as_dict (self (snd (extract_from_data st))) = as_dict (self st).
Proof.
  unfold extract_from_data, read_as_dict, modify_self, lift, read, raise,
    mbind, M_bind, mret, M_ret; simpl.
  cases; repeat split; reflexivity.
Qed.

(** X9. When the page is fetched, the item [X] extracted and the
    fields derived, [info] returns [X] itself and [as_dict] holds [X].
    Up to the point where the response's cookies are handed to the
    parent, nothing is written to the session's store: unlike [bytes],
    [info] sets no request header. *)
Theorem info_returns_item
    (session : Session) (proxy_kw : option string) (st st1 st2 : State)
    (u : string) (r : Response) (w : World) (X : value) :
  url (self st) = Some u ->
  requests_get
    {| req_url := u; req_headers := deref st (session_headers session);
       req_cookies := ∅;
       req_proxies := match proxy_kw with Some p => Some p | None => session_proxy session end |}
    (net st) = (Ok r, w) ->
  extract r (fetched u w st) = (Ok X, st1) ->
  extract_from_data (snd (modify_self (set_as_dict X) st1)) = (Ok tt, st2) ->
  fst (info session proxy_kw st) = Ok X
  /\ as_dict (self (snd (info session proxy_kw st))) = Some X
  /\ as_dict (self st2) = Some X
  /\ heap st2 = heap st.
Proof.
  intros Hu Hget Hx Hd.
  rewrite (info_after_extract session proxy_kw st st1 u r w X Hu Hget Hx), Hd. simpl.
  destruct (extract_from_data_frame (snd (modify_self (set_as_dict X) st1)))
    as (Hheap & _ & _ & Hdict).
  rewrite Hd in Hheap, Hdict. simpl in Hheap, Hdict.
  destruct (extract_adds_events r (fetched u w st)) as [evs Hev].
  rewrite Hx in Hev. simpl in Hev. subst st1. simpl in Hheap.
  repeat split; assumption || reflexivity.
Qed.

(** X10. [info] is not all-or-nothing.  When the item [X] is extracted
    and the derivation of the fields then fails, [info] raises that
    error with [as_dict] already replaced by [X]; the response's cookies
    are not merged then, and the store is as it was. *)
Theorem info_not_atomic
    (session : Session) (proxy_kw : option string) (st st1 st2 : State)
    (u : string) (r : Response) (w : World) (X : value) (e : exn) :
  url (self st) = Some u ->
  requests_get
    {| req_url := u; req_headers := deref st (session_headers session);
       req_cookies := ∅;
       req_proxies := match proxy_kw with Some p => Some p | None => session_proxy session end |}
    (net st) = (Ok r, w) ->
  extract r (fetched u w st) = (Ok X, st1) ->
  extract_from_data (snd (modify_self (set_as_dict X) st1)) = (Raise e, st2) ->
  info session proxy_kw st = (Raise e, st2)
  /\ as_dict (self st2) = Some X
  /\ heap st2 = heap st.
Proof.
  intros Hu Hget Hx Hd.
  rewrite (info_after_extract session proxy_kw st st1 u r w X Hu Hget Hx), Hd.
  destruct (extract_from_data_frame (snd (modify_self (set_as_dict X) st1)))
    as (Hheap & _ & _ & Hdict).
  rewrite Hd in Hheap, Hdict. simpl in Hheap, Hdict.
  destruct (extract_adds_events r (fetched u w st)) as [evs Hev].
  rewrite Hx in Hev. simpl in Hev. subst st1. simpl in Hheap.
  repeat split; auto.
Qed.
End Info.

(** ** [Video.bytes]: what it returns, and calling it again *)

Section RetrievalMore.
Context `{Host}.

Lemma download_validated (got : result Response) (body : bytestring) :
  download got = Ok body -> is_valid_container body = true.
Proof.
  rewrite download_candidate. destruct got as [response|e]; [|discriminate].
  destruct (candidate_succeeds (Ok response)) eqn:Hc.
  - intros [= <-]. simpl in Hc. now apply andb_true_iff in Hc as [_ Hv].
  - destruct (_ && _); discriminate.
Qed.

Lemma stream_validated (opened : result StreamedResponse) (first : bytestring) (gen : agen) :
  anext (stream_bytes opened) = Ok (first, gen) -> is_valid_container first = true.
Proof.
  destruct opened as [r|e]; [|discriminate].
  unfold stream_bytes, is_valid_container.
  destruct (aread r) as [body|e]; [|discriminate].
  destruct (negb _); [discriminate|].
  destruct (invalid_video _) eqn:Hv; [discriminate|].
  simpl. intros [= <- _]. now rewrite Hv.
Qed.

Lemma loop_validated (stream : bool) (urls : list string) (h : loc)
    (cookies : gmap string string) :
  forall (st st' : State) (m : media),
    (if stream then stream_loop else download_loop) urls h cookies st = (Ok m, st') ->
    validated m.
Proof.
  induction urls as [|url rest IH]; intros st st' m.
  - destruct stream; intros [= <- _]; exact I.
  - destruct stream.
    + rewrite stream_loop_step. destruct (client_stream _ _) as [opened w].
      destruct (anext (stream_bytes opened)) as [[first gen]|e] eqn:Hn; [|apply IH].
      intros [= <- _]. simpl. unfold valid_stream_generator.
      exists first, (yield_from gen). split; [reflexivity|].
      now apply (stream_validated opened first gen).
    + rewrite download_loop_step. destruct (requests_get _ _) as [got w].
      destruct (download got) as [body|e] eqn:Hb; [|apply IH].
      intros [= <- _]. simpl. now apply (download_validated got).
Qed.

(** X11. Whatever [Video.bytes] returns is validated: a buffer that is
    returned has [ftyp] within its first 32 bytes, and a stream that is
    returned starts with a chunk that has; the only other result is
    [None]. *)
Theorem bytes_returns_validated_media
    (stream : bool) (session : Session) (st st' : State) (m : media) :
  bytes stream session st = (Ok m, st') -> validated m.
Proof.
  destruct (as_dict (self st)) as [data|] eqn:Hd.
  - rewrite (bytes_prepared _ _ _ _ Hd). apply loop_validated.
  - unfold bytes, read_as_dict, read, lift, mbind, M_bind. simpl. rewrite Hd.
    discriminate.
Qed.

Lemma request_headers_twice (old : gmap string string) :
  request_headers (request_headers old) = request_headers old.
Proof.
  unfold request_headers. apply map_eq. intros k.
  destruct (decide (k = "referer")), (decide (k = "accept-encoding")),
    (decide (k = "range")); simplify_map_eq; reflexivity.
Qed.

(** X12. The request headers are written into the session's mapping
    once and for all: a second call of [Video.bytes], in whichever mode,
    leaves the store exactly as the first call left it. *)
Theorem bytes_again_same_store
    (first second : bool) (session : Session) (st : State) (data : value) :
  as_dict (self st) = Some data ->
  heap (snd (bytes second session (snd (bytes first session st))))
  = heap (snd (bytes first session st)).
Proof.
  intros Hd.
  assert (Hcall : forall (stream : bool) (s : State),
             as_dict (self s) = Some data ->
             self (snd (bytes stream session s)) = self s
             /\ heap (snd (bytes stream session s))
                = <[session_headers session :=
                      request_headers (deref s (session_headers session))]> (heap s)).
  { intros stream s Hs. rewrite (bytes_prepared _ _ _ _ Hs).
    destruct (loop_frame stream (extract_url_lists data) (session_headers session)
                (deref s (session_jar session)) (prepared session s))
      as (n & m & s' & Hrun & _ & _ & Hself & Hheap & _).
    rewrite Hrun. simpl. now rewrite Hself, Hheap. }
  destruct (Hcall first st Hd) as [Hself1 Hheap1].
  destruct (Hcall second (snd (bytes first session st))) as [_ Hheap2];
    [now rewrite Hself1|].
  rewrite Hheap2. unfold deref. rewrite Hheap1, lookup_insert_eq. simpl.
  now rewrite request_headers_twice, insert_insert_eq.
Qed.

(** X13. In streaming mode: the generator of a candidate yields a first
    chunk exactly when the candidate succeeds, that is when the
    connection opens, the body is read, the status is 200 and the first
    chunk passes the container validation; a candidate that fails in any
    of these ways, a status other than 200 and an exception of the
    transport included, is passed over for the next one; and on every list
    the requests made are a prefix of the candidates, each once, in list
    order, all of them when nothing is returned. *)
Theorem stream_fallback :
  (forall opened : result StreamedResponse,
      (exists first gen, anext (stream_bytes opened) = Ok (first, gen))
      <-> stream_succeeds opened = true)
  /\ (forall url rest h cookies (st : State) opened w,
         client_stream (candidate_request url h cookies st) (net st) = (opened, w) ->
         stream_succeeds opened = false ->
         stream_loop (url :: rest) h cookies st
         = stream_loop rest h cookies (fetched url w st))
  /\ (forall urls h cookies (st : State),
         exists (n : nat) (m : media) (st' : State),
           stream_loop urls h cookies st = (Ok m, st')
           /\ (n <= length urls)%nat
           /\ trace st' = trace st ++ map Fetch (firstn n urls)
           /\ (m = MNone -> n = length urls)).
Proof.
  split; [|split].
  - intros opened. destruct (stream_succeeds opened) eqn:Hs.
    + split; [reflexivity|]. intros _.
      destruct opened as [r|e]; [|discriminate]. simpl in Hs.
      destruct (aread r) as [body|e] eqn:Hread; [|discriminate].
      apply andb_true_iff in Hs as [Hst Hv].
      destruct (first_chunk_of body) as [chunk|] eqn:Hfirst; [|discriminate].
      apply Z.eqb_eq in Hst.
      rewrite (stream_bytes_valid r body chunk Hread Hst Hfirst Hv). simpl. eauto.
    + destruct (stream_failure _ Hs) as [e He]. rewrite He.
      split; [intros (first & gen & Hx); discriminate | discriminate].
  - intros url rest h cookies st opened w Hopen Hfail.
    rewrite stream_loop_step, Hopen. destruct (stream_failure _ Hfail) as [e ->].
    reflexivity.
  - intros urls h cookies st.
    destruct (loop_frame true urls h cookies st)
      as (n & m & st' & Hrun & Hn & Htr & _ & _ & Hnone & _).
    exists n, m, st'. auto.
Qed.
End RetrievalMore.

(** ** The collector and what it passes by *)

(** X14. A list of strings contributes nothing, whatever key holds it,
    [downloadAddr], [UrlList] or [PlayAddr]: only a string that is itself
    the value of a [downloadAddr] entry is collected. *)
Theorem url_lists_are_passed_by (k : string) (l : list string) :
  extract_url_lists (VDict [(k, VList (map VStr l))]) = [].
Proof.
  simpl. rewrite andb_false_r, List.app_nil_r.
  induction l as [|s l IH]; simpl; [reflexivity | exact IH].
Qed.

(** ** [Video.__init__] *)

Section ConstructionProps.
Context `{Api}.

Ltac run :=
  unfold init, info, bytes, resolve_id, read_as_dict, load, modify_self, lift, read, raise,
    mbind, M_bind, mret, M_ret; simpl.

(** X15. A video needs an id, a url or data: with none of them the
    construction raises a [TypeError].  With an id alone it is built
    without any request, and is of no use yet: [info] raises a
    [TypeError] for the missing url and [bytes] an [AttributeError] for
    the missing item, both before any request and any change to the
    session. *)
Theorem video_by_id_alone
    (i : string) (session : Session) (proxy_kw : option string) (stream : bool)
    (st : State) :
  init None None VNone session proxy_kw st
  = (Raise TypeError, with_self (new_video None None) st)
  /\ init (Some i) None VNone session proxy_kw st
     = (Ok tt, with_self (new_video (Some i) None) st)
  /\ info session proxy_kw (with_self (new_video (Some i) None) st)
     = (Raise TypeError, with_self (new_video (Some i) None) st)
  /\ bytes stream session (with_self (new_video (Some i) None) st)
     = (Raise AttributeError, with_self (new_video (Some i) None) st).
Proof. repeat split. Qed.

(** X16. Built from data, a video takes its id and its url from the
    data: the [id] and [url] arguments are overwritten, the id by the
    item's [id] entry and the url by the canonical one, and neither the
    network nor the store is touched.  When the item has no [id] entry
    the construction raises the [KeyError] of the lookup. *)
Theorem video_from_data
    (id_arg url_arg : option string) (d : list (string * value))
    (session : Session) (proxy_kw : option string) (st : State) :
  (forall st',
      init id_arg url_arg (VDict d) session proxy_kw st = (Ok tt, st') ->
      dict_lookup "id" d = Some (id (self st'))
      /\ id (self st') <> VNone
      /\ (exists u, author (self st') = Some u
                    /\ url (self st') = Some (video_url u (id (self st'))))
      /\ as_dict (self st') = Some (VDict d)
      /\ net st' = net st /\ heap st' = heap st /\ trace st' = trace st)
  /\ (dict_lookup "id" d = None ->
      fst (init id_arg url_arg (VDict d) session proxy_kw st)
      = Raise (KeyError (VStr "id"))).
Proof.
  split.
  - intros st'. run.
    destruct (extract_from_data _) as [[[]|e] st1] eqn:Hrun; [|discriminate].
    destruct (extract_from_data_inv _ _ Hrun)
      as (d' & i & ts & t & u & s & items & hs & Hd & Hi & _ & _ & _ & _ & _ & _ & ->).
    simpl in Hd. injection Hd as <-. simpl.
    destruct (is_none i) eqn:Hn; [discriminate|].
    intros [= <-]. simpl. repeat split; eauto.
    intros ->. discriminate.
  - intros Hi. run.
    unfold extract_from_data, read_as_dict, modify_self, lift, read,
      mbind, M_bind, mret, M_ret. simpl. now rewrite Hi.
Qed.

(** X17. Built from a url, without data, a video takes the id that
    [extract_video_id_from_url] finds for the url, whatever [id] argument
    was given with it; the helper is called with the session's headers and
    with the [proxy] argument, or the session's proxy when there is none.
    An exception of the helper ends the construction. *)
Theorem video_from_url
    (id_arg : option string) (u : string) (session : Session)
    (proxy_kw : option string) (st : State) (w : World) :
  (forall j,
      extract_video_id_from_url u (deref st (session_headers session))
        (match proxy_kw with Some p => Some p | None => session_proxy session end)
        (net st) = (Ok (VStr j), w) ->
      init id_arg (Some u) VNone session proxy_kw st
      = (Ok tt,
         {| self := new_video (Some j) (Some u); heap := heap st; net := w;
            trace := trace st |}))
  /\ (forall e,
         extract_video_id_from_url u (deref st (session_headers session))
           (match proxy_kw with Some p => Some p | None => session_proxy session end)
           (net st) = (Raise e, w) ->
         fst (init id_arg (Some u) VNone session proxy_kw st) = Raise e).
Proof.
  split.
  - intros j Hx. run. unfold deref in *. simpl. now rewrite Hx.
  - intros e Hx. run. unfold deref in *. simpl. now rewrite Hx.
Qed.
End ConstructionProps.

(** ** [comments] and [related_videos] *)

Section Listings.
Context `{Api}.

Lemma comments_from_requests (turns : nat) (self_id : value) (count : Z) :
  forall found cursor headers_kw session_index_kw w,
    Forall (asks_comments self_id)
      (requests (comments_from turns self_id count found cursor
                   headers_kw session_index_kw w))
    /\ (forall p rest,
           requests (comments_from turns self_id count found cursor
                       headers_kw session_index_kw w) = p :: rest ->
           dict_lookup "cursor" p = Some cursor).
Proof.
  induction turns as [|turns IH]; intros found cursor hk sk w; simpl.
  - split; [constructor | discriminate].
  - destruct (found <? count)%Z; [|split; [constructor | discriminate]].
    destruct (make_request _ _ _ _ _) as [got w1].
    assert (Hone : Forall (asks_comments self_id)
                     [[("aweme_id", self_id); ("count", VInt 20); ("cursor", cursor)]])
      by (repeat constructor).
    destruct (read_page parent_comment "comments" got) as [ys [resp|e]]; simpl.
    2:{ split; [exact Hone | intros p rest [= <- _]; reflexivity]. }
    destruct (get resp "has_more" (VBool false)) as [hm|e]; simpl.
    2:{ split; [exact Hone | intros p rest [= <- _]; reflexivity]. }
    destruct (negb (truthy hm)); simpl.
    { split; [exact Hone | intros p rest [= <- _]; reflexivity]. }
    destruct (get resp "cursor" VNone) as [next|e]; simpl.
    2:{ split; [exact Hone | intros p rest [= <- _]; reflexivity]. }
    split.
    + constructor; [repeat constructor | apply IH].
    + intros p rest [= <- _]. reflexivity.
Qed.

(** X18. Every request of [comments] asks for the comments of this
    video, twenty at a time: the [count] argument is not sent, it only
    decides whether another request is made.  The first request carries
    the [cursor] argument. *)
Theorem comments_asks_twenty
    (turns : nat) (v : Video) (count : Z)
    (cursor headers_kw session_index_kw : value) (w : World) :
  Forall (asks_comments (id v))
    (requests (comments turns v count cursor headers_kw session_index_kw w))
  /\ (forall p rest,
         requests (comments turns v count cursor headers_kw session_index_kw w)
         = p :: rest ->
         dict_lookup "cursor" p = Some cursor).
Proof. apply comments_from_requests. Qed.

(** X19. [comments] yields whole pages.  When the first answer holds
    a list of comments that the parent builds and its [has_more] is absent
    or falsy, every comment of that list is yielded and the generator
    returns after that one request, whether [count] was reached, exceeded
    or not. *)
Theorem comments_yields_whole_page
    (turns : nat) (v : Video) (count : Z)
    (cursor headers_kw session_index_kw : value) (w w1 : World)
    (p : list (string * value)) (vs : list value) (ys : list Comment) :
  (0 < count)%Z ->
  make_request comment_list_url
    [("aweme_id", id v); ("count", VInt 20); ("cursor", cursor)]
    headers_kw session_index_kw w = (Ok (VDict p), w1) ->
  dict_lookup "comments" p = Some (VList vs) ->
  yield_built parent_comment vs = (ys, None) ->
  truthy (default (VBool false) (dict_lookup "has_more" p)) = false ->
  comments (S turns) v count cursor headers_kw session_index_kw w
  = {| yielded := ys; how := Returned;
       requests := [[("aweme_id", id v); ("count", VInt 20); ("cursor", cursor)]];
       after := w1 |}.
Proof.
  intros Hc Hget Hp Hys Hmore. unfold comments. simpl.
  destruct (Z.ltb_spec 0 count); [|lia].
  rewrite Hget. unfold read_page. simpl. rewrite Hp. simpl. rewrite Hys.
  unfold get. unfold default, Datatypes.id in Hmore. now rewrite Hmore.
Qed.

Lemma yield_built_length {A} (build : value -> result A) (vs : list value)
    (ys : list A) :
  yield_built build vs = (ys, None) -> length ys = length vs.
Proof.
  revert ys. induction vs as [|x vs IH]; intros ys; simpl.
  - now intros [= <-].
  - destruct (build x); [|discriminate].
    destruct (yield_built build vs) as [ys' e]. intros [= <- ->].
    simpl. f_equal. now apply IH.
Qed.

Lemma comments_from_stalls (self_id : value) (count : Z) (headers_kw session_index_kw : value) :
  (forall params w, exists resp w1,
        make_request comment_list_url params headers_kw session_index_kw w = (Ok resp, w1)
        /\ stalls_comments resp) ->
  forall turns found cursor w,
    (found < count)%Z ->
    yielded (comments_from turns self_id count found cursor
               headers_kw session_index_kw w) = []
    /\ how (comments_from turns self_id count found cursor
              headers_kw session_index_kw w) = Unfinished
    /\ length (requests (comments_from turns self_id count found cursor
                           headers_kw session_index_kw w)) = turns.
Proof.
  intros Hserver. induction turns as [|turns IH]; intros found cursor w Hlt; simpl.
  - auto.
  - destruct (Z.ltb_spec found count); [|lia].
    destruct (Hserver [("aweme_id", self_id); ("count", VInt 20); ("cursor", cursor)] w)
      as (resp & w1 & -> & p & -> & Hp & Hmore).
    unfold read_page. simpl. rewrite Hp. simpl. unfold get.
    unfold default, Datatypes.id in Hmore. rewrite Hmore. simpl.
    destruct (IH (found + Z.of_nat 0)%Z
                (match dict_lookup "cursor" p with Some x => x | None => VNone end) w1)
      as (Hy & Hh & Hr); [lia|].
    simpl. rewrite Hy, Hh, Hr. auto.
Qed.

(** X20. [comments] need not end.  Against a server that keeps
    answering with an empty page and [has_more] set, and with a positive
    [count], the loop makes a request at every turn, yields nothing and
    has not ended after any number of turns. *)
Theorem comments_may_not_end
    (v : Video) (count : Z) (cursor headers_kw session_index_kw : value) :
  (0 < count)%Z ->
  (forall params w, exists resp w1,
        make_request comment_list_url params headers_kw session_index_kw w = (Ok resp, w1)
        /\ stalls_comments resp) ->
  forall turns w,
    yielded (comments turns v count cursor headers_kw session_index_kw w) = []
    /\ how (comments turns v count cursor headers_kw session_index_kw w) = Unfinished
    /\ length (requests (comments turns v count cursor headers_kw session_index_kw w))
       = turns.
Proof.
  intros Hc Hserver turns w. unfold comments.
  now apply comments_from_stalls.
Qed.

Lemma related_from_shape (turns : nat) (self_id : value) (count : Z)
    (headers_kw session_index_kw : value) :
  forall found w,
    Forall (fun p => p = [("itemID", self_id); ("count", VInt 16)])
      (requests (related_from turns self_id count found headers_kw session_index_kw w))
    /\ (how (related_from turns self_id count found headers_kw session_index_kw w)
        = Returned ->
        (count <= found
                  + Z.of_nat (length (yielded (related_from turns self_id count found
                                                 headers_kw session_index_kw w))))%Z).
Proof.
  induction turns as [|turns IH]; intros found w; simpl.
  - split; [constructor | discriminate].
  - destruct (Z.ltb_spec found count); [|split; [constructor | simpl; lia]].
    destruct (make_request _ _ _ _ _) as [got w1].
    destruct (read_page parent_video "itemList" got) as [ys [resp|e]]; simpl.
    2:{ split; [repeat constructor | discriminate]. }
    destruct (IH (found + Z.of_nat (length ys))%Z w1) as [Hreq Hret].
    split; [constructor; [reflexivity | exact Hreq]|].
    intros Hh. specialize (Hret Hh). rewrite List.length_app. lia.
Qed.

(** X21. [related_videos] asks the same question at every turn, the
    video's id and a count of 16, with no cursor: neither the [count] nor
    the [cursor] argument is sent.  It returns only once it has yielded at
    least [count] videos. *)
Theorem related_videos_same_request
    (turns : nat) (v : Video) (count : Z)
    (cursor headers_kw session_index_kw : value) (w : World) :
  Forall (fun p => p = [("itemID", id v); ("count", VInt 16)])
    (requests (related_videos turns v count cursor headers_kw session_index_kw w))
  /\ (how (related_videos turns v count cursor headers_kw session_index_kw w) = Returned ->
      (count <= Z.of_nat (length (yielded (related_videos turns v count cursor
                                              headers_kw session_index_kw w))))%Z).
Proof.
  unfold related_videos.
  destruct (related_from_shape turns (id v) count headers_kw session_index_kw 0 w)
    as [Hreq Hret].
  split; [exact Hreq | intros Hh; specialize (Hret Hh); lia].
Qed.

Lemma related_from_stalls (self_id : value) (count : Z) (headers_kw session_index_kw : value) :
  (forall params w, exists resp w1,
        make_request related_list_url params headers_kw session_index_kw w = (Ok resp, w1)
        /\ no_related resp) ->
  forall turns found w,
    (found < count)%Z ->
    yielded (related_from turns self_id count found headers_kw session_index_kw w) = []
    /\ how (related_from turns self_id count found headers_kw session_index_kw w)
       = Unfinished
    /\ length (requests (related_from turns self_id count found
                           headers_kw session_index_kw w)) = turns.
Proof.
  intros Hserver. induction turns as [|turns IH]; intros found w Hlt; simpl.
  - auto.
  - destruct (Z.ltb_spec found count); [|lia].
    destruct (Hserver [("itemID", self_id); ("count", VInt 16)] w)
      as (resp & w1 & -> & p & -> & Hp).
    assert (Hpage : read_page parent_video "itemList" (Ok (VDict p)) = ([], Ok (VDict p))).
    { unfold read_page. simpl. destruct Hp as [->| ->]; reflexivity. }
    rewrite Hpage.
    destruct (IH (found + Z.of_nat 0)%Z w1) as (Hy & Hh & Hr); [lia|].
    simpl. rewrite Hy, Hh, Hr. auto.
Qed.

(** X22. [related_videos] has no way out but reaching [count].
    Against a server whose answers hold no [itemList], or an empty one,
    and with a positive [count], the loop makes a request at every turn,
    yields nothing and has not ended after any number of turns. *)
Theorem related_videos_may_not_end
    (v : Video) (count : Z) (cursor headers_kw session_index_kw : value) :
  (0 < count)%Z ->
  (forall params w, exists resp w1,
        make_request related_list_url params headers_kw session_index_kw w = (Ok resp, w1)
        /\ no_related resp) ->
  forall turns w,
    yielded (related_videos turns v count cursor headers_kw session_index_kw w) = []
    /\ how (related_videos turns v count cursor headers_kw session_index_kw w)
       = Unfinished
    /\ length (requests (related_videos turns v count cursor
                           headers_kw session_index_kw w)) = turns.
Proof.
  intros Hc Hserver turns w. unfold related_videos.
  now apply related_from_stalls.
Qed.

Lemma comments_from_ends (self_id : value) (count : Z) (headers_kw session_index_kw : value) :
  (forall params w got w1 ys resp,
      make_request comment_list_url params headers_kw session_index_kw w = (got, w1) ->
      read_page parent_comment "comments" got = (ys, Ok resp) -> ys <> []) ->
  forall turns found cursor w,
    (Z.to_nat (count - found) < turns)%nat ->
    how (comments_from turns self_id count found cursor headers_kw session_index_kw w)
    <> Unfinished
    /\ (length (requests (comments_from turns self_id count found cursor
                            headers_kw session_index_kw w))
        <= Z.to_nat (count - found))%nat.
Proof.
  intros Hserver. induction turns as [|turns IH]; intros found cursor w Hturns; [lia|].
  simpl. destruct (Z.ltb_spec found count); [|simpl; split; [discriminate | lia]].
  destruct (make_request _ _ _ _ _) as [got w1] eqn:Hget.
  destruct (read_page parent_comment "comments" got) as [ys [resp|e]] eqn:Hpage; simpl;
    [|split; [discriminate | lia]].
  destruct (get resp "has_more" (VBool false)) as [hm|e]; simpl;
    [|split; [discriminate | lia]].
  destruct (negb (truthy hm)); simpl; [split; [discriminate | lia]|].
  destruct (get resp "cursor" VNone) as [next|e]; simpl; [|split; [discriminate | lia]].
  assert (Hys : ys <> []) by (eapply Hserver; eauto).
  assert (Hlen : (1 <= length ys)%nat) by (destruct ys; [congruence | simpl; lia]).
  destruct (IH (found + Z.of_nat (length ys))%Z next w1) as [Hh Hr]; [lia|].
  split; [exact Hh | lia].
Qed.

Lemma related_from_ends (self_id : value) (count : Z) (headers_kw session_index_kw : value) :
  (forall params w got w1 ys resp,
      make_request related_list_url params headers_kw session_index_kw w = (got, w1) ->
      read_page parent_video "itemList" got = (ys, Ok resp) -> ys <> []) ->
  forall turns found w,
    (Z.to_nat (count - found) < turns)%nat ->
    how (related_from turns self_id count found headers_kw session_index_kw w)
    <> Unfinished
    /\ (length (requests (related_from turns self_id count found
                            headers_kw session_index_kw w))
        <= Z.to_nat (count - found))%nat.
Proof.
  intros Hserver. induction turns as [|turns IH]; intros found w Hturns; [lia|].
  simpl. destruct (Z.ltb_spec found count); [|simpl; split; [discriminate | lia]].
  destruct (make_request _ _ _ _ _) as [got w1] eqn:Hget.
  destruct (read_page parent_video "itemList" got) as [ys [resp|e]] eqn:Hpage; simpl;
    [|split; [discriminate | lia]].
  assert (Hys : ys <> []) by (eapply Hserver; eauto).
  assert (Hlen : (1 <= length ys)%nat) by (destruct ys; [congruence | simpl; lia]).
  destruct (IH (found + Z.of_nat (length ys))%Z w1) as [Hh Hr]; [lia|].
  split; [exact Hh | lia].
Qed.

(** X23. Both generators end within [count] requests whenever every
    page that is read through yields at least one object: with more than
    [count] turns allowed the iteration has ended, by a return or by an
    exception, after at most [count] requests. *)
Theorem listings_end_when_pages_yield
    (turns : nat) (v : Video) (count : Z)
    (cursor headers_kw session_index_kw : value) (w : World) :
  (Z.to_nat count < turns)%nat ->
  ((forall params w got w1 ys resp,
       make_request comment_list_url params headers_kw session_index_kw w = (got, w1) ->
       read_page parent_comment "comments" got = (ys, Ok resp) -> ys <> []) ->
   how (comments turns v count cursor headers_kw session_index_kw w) <> Unfinished
   /\ (length (requests (comments turns v count cursor headers_kw session_index_kw w))
       <= Z.to_nat count)%nat)
  /\ ((forall params w got w1 ys resp,
          make_request related_list_url params headers_kw session_index_kw w = (got, w1) ->
          read_page parent_video "itemList" got = (ys, Ok resp) -> ys <> []) ->
      how (related_videos turns v count cursor headers_kw session_index_kw w)
      <> Unfinished
      /\ (length (requests (related_videos turns v count cursor
                              headers_kw session_index_kw w))
          <= Z.to_nat count)%nat).
Proof.
  intros Hturns. unfold comments, related_videos. split; intros Hserver.
  - destruct (comments_from_ends (id v) count headers_kw session_index_kw Hserver
                turns 0 cursor w) as [Hh Hr].
    + now rewrite Z.sub_0_r.
    + rewrite Z.sub_0_r in Hr. auto.
  - destruct (related_from_ends (id v) count headers_kw session_index_kw Hserver
                turns 0 w) as [Hh Hr].
    + now rewrite Z.sub_0_r.
    + rewrite Z.sub_0_r in Hr. auto.
Qed.

(** X24. When [make_request] has no answer ([None]), both generators
    raise the invalid-response exception, with no error code, at that
    request; and with a [count] that is not positive neither of them makes
    a request at all: they return at once. *)
Theorem listings_without_answer
    (turns : nat) (v : Video) (count : Z)
    (cursor headers_kw session_index_kw : value) (w w1 : World) :
  ((0 < count)%Z ->
   make_request comment_list_url
     [("aweme_id", id v); ("count", VInt 20); ("cursor", cursor)]
     headers_kw session_index_kw w = (Ok VNone, w1) ->
   comments (S turns) v count cursor headers_kw session_index_kw w
   = {| yielded := []; how := Raised (InvalidResponseException None);
        requests := [[("aweme_id", id v); ("count", VInt 20); ("cursor", cursor)]];
        after := w1 |})
  /\ ((0 < count)%Z ->
      make_request related_list_url [("itemID", id v); ("count", VInt 16)]
        headers_kw session_index_kw w = (Ok VNone, w1) ->
      related_videos (S turns) v count cursor headers_kw session_index_kw w
      = {| yielded := []; how := Raised (InvalidResponseException None);
           requests := [[("itemID", id v); ("count", VInt 16)]];
           after := w1 |})
  /\ ((count <= 0)%Z ->
      comments (S turns) v count cursor headers_kw session_index_kw w
      = {| yielded := []; how := Returned; requests := []; after := w |}
      /\ related_videos (S turns) v count cursor headers_kw session_index_kw w
         = {| yielded := []; how := Returned; requests := []; after := w |}).
Proof.
  unfold comments, related_videos. simpl. split; [|split].
  - intros Hc Hget. destruct (Z.ltb_spec 0 count); [|lia]. now rewrite Hget.
  - intros Hc Hget. destruct (Z.ltb_spec 0 count); [|lia]. now rewrite Hget.
  - intros Hc. destruct (Z.ltb_spec 0 count); [lia|]. split; reflexivity.
Qed.
End Listings.

(** ** The further statements at the sample inputs *)

Lemma info_bad_status_witness :
  @info web_host sample_session None (web_state "https://v16.example/a")
  = (Raise (InvalidResponseException (Some 403%Z)),
     @fetched web_host "https://v16.example/a" 1%nat (web_state "https://v16.example/a")).
Proof.
  apply (@info_bad_status web_host sample_session None
           (web_state "https://v16.example/a") "https://v16.example/a"
           (media_response 403 "text/html" html_head) 1%nat);
    [reflexivity | reflexivity | discriminate].
Defined.

Lemma legacy_unclosed_witness :
  @extract sample_host cut_page page_state
  = (Raise (InvalidResponseException (Some 200%Z)),
     add_events [Scan SIGI_STATE; Scan script_close] page_state).
Proof.
  apply (@legacy_unclosed sample_host cut_page page_state 12%Z);
    [reflexivity | vm_compute; reflexivity | lia | vm_compute; reflexivity].
Defined.

Lemma rehydration_markers_missing_witness :
  @extract sample_host bare_page page_state
  = (Raise (InvalidResponseException (Some 200%Z)),
     add_events [Scan SIGI_STATE; Scan UNIVERSAL_DATA] page_state).
Proof.
  apply (proj1 (@rehydration_markers_missing sample_host bare_page page_state
                  ltac:(reflexivity) ltac:(vm_compute; reflexivity)));
    vm_compute; reflexivity.
Defined.

Lemma legacy_payload_failures_witness :
  @extract sample_host legacy_page stranger_state
  = (Raise (KeyError (VStr "7041997751718137000")),
     add_events [Scan SIGI_STATE; Scan script_close] stranger_state).
Proof.
  apply (proj2 (proj2 (@legacy_payload_failures sample_host legacy_page stranger_state
                         12%Z 384%Z
                         ltac:(reflexivity) ltac:(vm_compute; reflexivity) ltac:(lia)
                         ltac:(vm_compute; reflexivity) ltac:(lia)))
           [("ItemModule", VDict [(video_id, VDict sample_item)])]
           [(video_id, VDict sample_item)] "7041997751718137000");
    vm_compute; reflexivity.
Defined.

Lemma extract_from_data_success_witness :
  @extract_from_data sample_host media_state
  = (Ok tt, with_self derived_video media_state).
Proof.
  apply (@extract_from_data_success sample_host media_state sample_item
           (VStr video_id) (VStr "1639609681") 1639609681%Z 1639609681%Z
           "davidteathercodes" tt [] []);
    try reflexivity. discriminate.
Defined.

Lemma extract_from_data_idempotent_witness :
  @extract_from_data sample_host (snd (@extract_from_data sample_host media_state))
  = (Ok tt, snd (@extract_from_data sample_host media_state)).
Proof.
  apply (@extract_from_data_idempotent sample_host media_state). reflexivity.
Defined.

Lemma hashtags_follow_challenges_witness :
  exists items hs,
    iterate (default (VList []) (dict_lookup "challenges" tagged_item)) = Ok items
    /\ hashtags (self (snd (@extract_from_data sample_host tagged_state))) = Some hs
    /\ Forall2 (fun c h => @parent_hashtag sample_host c = Ok h) items hs.
Proof.
  apply (@hashtags_follow_challenges sample_host tagged_state
           (snd (@extract_from_data sample_host tagged_state)) tagged_item);
    reflexivity.
Defined.

Lemma extract_from_data_requires_id_witness :
  @extract_from_data sample_host anonymous_state
  = (Raise (KeyError (VStr "id")), anonymous_state).
Proof.
  apply (proj1 (@extract_from_data_requires_id sample_host anonymous_state
                  (VDict [("author", VStr "davidteathercodes")]) ltac:(reflexivity))
           [("author", VStr "davidteathercodes")]);
    reflexivity.
Defined.

Lemma info_returns_item_witness :
  fst (@info web_host sample_session None (web_state video_page_url))
  = Ok (VDict sample_item).
Proof.
  apply (proj1 (@info_returns_item web_host sample_session None
                  (web_state video_page_url)
                  (snd (@extract web_host legacy_page
                          (@fetched web_host video_page_url 1%nat
                             (web_state video_page_url))))
                  (snd (@extract_from_data web_host
                          (snd (modify_self (set_as_dict (VDict sample_item))
                                  (snd (@extract web_host legacy_page
                                          (@fetched web_host video_page_url 1%nat
                                             (web_state video_page_url))))))))
                  video_page_url legacy_page 1%nat (VDict sample_item)
                  ltac:(reflexivity) ltac:(reflexivity)
                  ltac:(vm_compute; reflexivity) ltac:(vm_compute; reflexivity))).
Defined.

Lemma info_not_atomic_witness :
  fst (@info web_host sample_session None (web_state undated_page_url)) = Raise TypeError
  /\ as_dict (self (snd (@info web_host sample_session None (web_state undated_page_url))))
     = Some (VDict undated_item)
  /\ heap (snd (@info web_host sample_session None (web_state undated_page_url)))
     = heap (web_state undated_page_url).
Proof.
  destruct (@info_not_atomic web_host sample_session None
              (web_state undated_page_url)
              (snd (@extract web_host undated_page
                      (@fetched web_host undated_page_url 1%nat
                         (web_state undated_page_url))))
              (snd (@extract_from_data web_host
                      (snd (modify_self (set_as_dict (VDict undated_item))
                              (snd (@extract web_host undated_page
                                      (@fetched web_host undated_page_url 1%nat
                                         (web_state undated_page_url))))))))
              undated_page_url undated_page 1%nat (VDict undated_item) TypeError
              ltac:(reflexivity) ltac:(reflexivity)
              ltac:(vm_compute; reflexivity) ltac:(vm_compute; reflexivity))
    as (Hrun & Hdict & Hheap).
  rewrite Hrun. simpl. split; [reflexivity|]. split; assumption.
Defined.

Lemma bytes_returns_validated_media_witness : validated (MBytes mp4_head).
Proof.
  apply (@bytes_returns_validated_media sample_host false sample_session media_state
           (snd (@bytes sample_host false sample_session media_state))).
  vm_compute. reflexivity.
Defined.

Lemma bytes_again_same_store_witness :
  heap (snd (@bytes sample_host true sample_session
               (snd (@bytes sample_host false sample_session media_state))))
  = heap (snd (@bytes sample_host false sample_session media_state)).
Proof.
  apply (@bytes_again_same_store sample_host false true sample_session media_state
           (VDict sample_item)).
  reflexivity.
Defined.

Lemma stream_fallback_witness :
  @stream_loop sample_host ["https://v16.example/a"; "https://v16.example/c"]
    1%positive ∅ media_state
  = @stream_loop sample_host ["https://v16.example/c"] 1%positive ∅
      (@fetched sample_host "https://v16.example/a" 1%nat media_state).
Proof.
  apply (proj1 (proj2 (@stream_fallback sample_host))
           "https://v16.example/a" ["https://v16.example/c"] 1%positive ∅ media_state
           (Ok {| stream_status_code := 403; aread := Ok html_head |}) 1%nat);
    reflexivity.
Defined.

Lemma video_from_data_witness :
  dict_lookup "id" tagged_item
  = Some (id (self (snd (@init sample_host (page_api VNone) (Some "1") None
                           (VDict tagged_item) sample_session None page_state))))
  /\ fst (@init sample_host (page_api VNone) (Some "1") None
            (VDict [("author", VStr "davidteathercodes")]) sample_session None page_state)
     = Raise (KeyError (VStr "id")).
Proof.
  split.
  - apply (proj1 (@video_from_data sample_host (page_api VNone) (Some "1") None
                    tagged_item sample_session None page_state)
             (snd (@init sample_host (page_api VNone) (Some "1") None
                     (VDict tagged_item) sample_session None page_state))).
    reflexivity.
  - apply (proj2 (@video_from_data sample_host (page_api VNone) (Some "1") None
                    [("author", VStr "davidteathercodes")] sample_session None page_state)).
    reflexivity.
Defined.

Lemma video_from_url_witness :
  @init sample_host (page_api VNone) (Some "1") (Some video_page_url) VNone
    sample_session None page_state
  = (Ok tt,
     {| self := @new_video sample_host (Some video_id) (Some video_page_url);
        heap := heap page_state; net := (1%nat : @World sample_host);
        trace := trace page_state |}).
Proof.
  apply (proj1 (@video_from_url sample_host (page_api VNone) (Some "1") video_page_url
                  sample_session None page_state 1%nat) video_id).
  reflexivity.
Defined.

Lemma comments_asks_twenty_witness :
  dict_lookup "cursor" [("aweme_id", VStr video_id); ("count", VInt 20); ("cursor", VInt 7)]
  = Some (VInt 7).
Proof.
  apply (proj2 (@comments_asks_twenty sample_host (page_api steady_page) 5
                  (sample_video None) 3 (VInt 7) VNone VNone 0%nat)
           [("aweme_id", VStr video_id); ("count", VInt 20); ("cursor", VInt 7)]
           [[("aweme_id", VStr video_id); ("count", VInt 20); ("cursor", VInt 2)]]).
  reflexivity.
Defined.

Lemma comments_yields_whole_page_witness :
  @comments sample_host (page_api last_page) 5 (sample_video None) 1 (VInt 0) VNone VNone
    0%nat
  = {| yielded := ([VStr "first"; VStr "second"; VStr "third"]
                   : list (@Comment sample_host (page_api last_page)));
       how := Returned;
       requests := [[("aweme_id", VStr video_id); ("count", VInt 20); ("cursor", VInt 0)]];
       after := (1%nat : @World sample_host) |}.
Proof.
  apply (@comments_yields_whole_page sample_host (page_api last_page) 4
           (sample_video None) 1 (VInt 0) VNone VNone 0%nat 1%nat
           [ ("comments", VList [ VStr "first"; VStr "second"; VStr "third" ]);
             ("itemList", VList [ VStr "7041997751718137001"; VStr "7041997751718137002" ]);
             ("has_more", VBool false) ]
           [ VStr "first"; VStr "second"; VStr "third" ]);
    reflexivity.
Defined.

Lemma comments_may_not_end_witness :
  yielded (@comments sample_host (page_api empty_page) 7 (sample_video None) 1 (VInt 0)
             VNone VNone 0%nat) = []
  /\ how (@comments sample_host (page_api empty_page) 7 (sample_video None) 1 (VInt 0)
            VNone VNone 0%nat) = Unfinished
  /\ length (requests (@comments sample_host (page_api empty_page) 7 (sample_video None) 1
                         (VInt 0) VNone VNone 0%nat)) = 7%nat.
Proof.
  apply (@comments_may_not_end sample_host (page_api empty_page) (sample_video None) 1
           (VInt 0) VNone VNone); [lia|].
  intros params w. exists empty_page, (S w). split; [reflexivity|].
  exists [ ("comments", VList []); ("has_more", VBool true); ("cursor", VInt 0) ].
  repeat split; reflexivity.
Defined.

Lemma related_videos_same_request_witness :
  (3 <= Z.of_nat (length (yielded (@related_videos sample_host (page_api steady_page) 5
                                     (sample_video None) 3 (VInt 0) VNone VNone 0%nat))))%Z.
Proof.
  apply (proj2 (@related_videos_same_request sample_host (page_api steady_page) 5
                  (sample_video None) 3 (VInt 0) VNone VNone 0%nat)).
  reflexivity.
Defined.

Lemma related_videos_may_not_end_witness :
  yielded (@related_videos sample_host (page_api empty_page) 7 (sample_video None) 1
             (VInt 0) VNone VNone 0%nat) = []
  /\ how (@related_videos sample_host (page_api empty_page) 7 (sample_video None) 1
            (VInt 0) VNone VNone 0%nat) = Unfinished
  /\ length (requests (@related_videos sample_host (page_api empty_page) 7
                         (sample_video None) 1 (VInt 0) VNone VNone 0%nat)) = 7%nat.
Proof.
  apply (@related_videos_may_not_end sample_host (page_api empty_page) (sample_video None)
           1 (VInt 0) VNone VNone); [lia|].
  intros params w. exists empty_page, (S w). split; [reflexivity|].
  exists [ ("comments", VList []); ("has_more", VBool true); ("cursor", VInt 0) ].
  split; [reflexivity | left; reflexivity].
Defined.

Lemma listings_without_answer_witness :
  @comments sample_host (page_api VNone) 3 (sample_video None) 20 (VInt 0) VNone VNone 0%nat
  = {| yielded := ([] : list (@Comment sample_host (page_api VNone)));
       how := Raised (InvalidResponseException None);
       requests := [[("aweme_id", VStr video_id); ("count", VInt 20); ("cursor", VInt 0)]];
       after := (1%nat : @World sample_host) |}.
Proof.
  apply (proj1 (@listings_without_answer sample_host (page_api VNone) 2
                  (sample_video None) 20 (VInt 0) VNone VNone 0%nat 1%nat));
    [lia | reflexivity].
Defined.

Lemma listings_end_when_pages_yield_witness :
  how (@comments sample_host (page_api steady_page) 5 (sample_video None) 3 (VInt 0)
         VNone VNone 0%nat) <> Unfinished
  /\ (length (requests (@comments sample_host (page_api steady_page) 5 (sample_video None)
                          3 (VInt 0) VNone VNone 0%nat)) <= Z.to_nat 3)%nat.
Proof.
  apply (proj1 (@listings_end_when_pages_yield sample_host (page_api steady_page) 5
                  (sample_video None) 3 (VInt 0) VNone VNone 0%nat
                  ltac:(vm_compute; lia))).
  intros params w got w1 ys resp Hget Hpage.
  injection Hget as <- _. vm_compute in Hpage. injection Hpage as <- _. discriminate.
Defined.
